(** * fedinfo: the node-info resolver and its time-bounded cache

    A shallow embedding of [fedinfo.go]: the [Cache] type with its
    [Get], [Set] and [segfaultPrevention] methods, the error types and
    [ServeHTTP] wrapper, and the [nodeInfoRoute] handler with its link
    scan.  The standard library (clock, URL parser, HTTP client, JSON
    codec) is the environment of the program and enters as data. *)

From Stdlib Require Import Ascii.
From stdpp Require Import base option numbers strings list gmap.

Local Open Scope Z_scope.

(** ** Go values used by the program *)

(** [time.Duration] is an [int64] count of nanoseconds. *)
Definition minDuration : Z := - 2 ^ 63.
Definition maxDuration : Z := 2 ^ 63 - 1.

(** Two's complement wrap-around of [int64] arithmetic. *)
Definition wrap64 (z : Z) : Z := (z + 2 ^ 63) `mod` 2 ^ 64 - 2 ^ 63.

(** A [time.Time] returned by [time.Now()] carries a monotonic clock
    reading, an [int64] count of nanoseconds since the process started;
    the program never builds a [time.Time] any other way, so a time is
    its reading. *)
Definition monotonic (t : Z) : Prop := 0 <= t <= maxDuration.

(** [Time.Sub] on two readings ([subMono] in package [time]): the
    [int64] difference, saturated where it overflows. *)
Definition Time_Sub (t u : Z) : Z :=
  let d := wrap64 (t - u) in
  if (d <? 0) && (u <? t) then maxDuration
  else if (0 <? d) && (t <? u) then minDuration
  else d.

(** A Go map of string keys is a reference that may be [nil]: reading a
    nil map finds nothing, assigning into it is a run-time panic. *)
Abbreviation gomap V := (option (gmap string V)).

(** [v, ok := m[key]] *)
Definition index {V} (m : gomap V) (key : string) : option V :=
  m ≫= (.!! key).

(** [m[key] = v]; [None] is the panic "assignment to entry in nil map". *)
Definition assign {V} (m : gomap V) (key : string) (v : V) : option (gomap V) :=
  match m with
  | None => None
  | Some g => Some (Some (<[key := v]> g))
  end.

(** ** Data types of [fedinfo.go] *)

Record Software := { Name : string; Version : string }.

Record Link := { Rel : string; Href : string }.

Record WellKnownNodeInfo := { Links : list Link }.

Record NodeInfo := { Domain : string; NodeInfo_Software : Software }.

(** The zero value of [Software], what a named result holds before it
    is assigned. *)
Definition zeroSoftware : Software := {| Name := ""; Version := "" |}.

(** ** The cache *)

(** The [lock] field is left out: every method holds it from its first
    statement to its return, so the methods are atomic steps on the
    other three fields. *)
Record Cache := {
  TTL : Z;
  Data : gomap Software;
  Age : gomap Z
}.

Definition segfaultPrevention (c : Cache) : Cache :=
  {| TTL := TTL c;
     Data := match Data c with None => Some ∅ | Some d => Some d end;
     Age := match Age c with None => Some ∅ | Some a => Some a end |}.

(** [c.Get(key)] when [time.Now()] reads [now]: the two results and the
    cache afterwards, or [None] if the method panics. *)
Definition Cache_Get (now : Z) (key : string) (c : Cache)
  : option (Software * bool * Cache) :=
  let c := segfaultPrevention c in
  match index (Age c) key with
  | Some age =>
      if TTL c <? Time_Sub now age then Some (zeroSoftware, false, c)
      else match index (Data c) key with
           | Some sfw => Some (sfw, true, c)
           | None => Some (zeroSoftware, false, c)
           end
  | None =>
      match index (Data c) key with
      | Some sfw =>
          age' ← assign (Age c) key now;
          Some (sfw, true, {| TTL := TTL c; Data := Data c; Age := age' |})
      | None => Some (zeroSoftware, false, c)
      end
  end.

(** [c.Set(key, sfw)] when [time.Now()] reads [now]. *)
Definition Cache_Set (now : Z) (key : string) (sfw : Software) (c : Cache)
  : option Cache :=
  let c := segfaultPrevention c in
  data' ← assign (Data c) key sfw;
  age' ← assign (Age c) key now;
  Some {| TTL := TTL c; Data := data'; Age := age' |}.

(** ** Errors and the [HandlerWithError] wrapper *)

(** The values of Go's [error] interface that reach the handler's
    caller: the two string types declared in [fedinfo.go], and the
    errors of the standard library ([ParseForm], [http.Get], the JSON
    decoder and encoder), which are opaque to the program and carry
    their message only. *)
Inductive error :=
  | ErrMissingParam (e : string)
  | ErrBadRequest (e : string)
  | LibraryError (msg : string).

Definition Error (e : error) : string :=
  match e with
  | ErrMissingParam e => "missing mandatory parameter: " +:+ e
  | ErrBadRequest e => e
  | LibraryError msg => msg
  end.

(** What the client gets: a status code and a body. *)
Record Response := { status : Z; body : string }.

Definition StatusBadRequest : Z := 400.
Definition StatusInternalServerError : Z := 500.

(** [http.Error(w, error, code)]: the message and a line feed under the
    given status. *)
Definition http_Error (error : string) (code : Z) : Response :=
  {| status := code; body := error +:+ String "010" "" |}.

(** [err.(ErrorResponder)] followed by [RespondError]: [None] when the
    type assertion fails (the type has no [RespondError] method),
    otherwise the response written and the [wasHandled] result. *)
Definition RespondError (e : error) : option (Response * bool) :=
  match e with
  | ErrMissingParam _ | ErrBadRequest _ =>
      Some (http_Error (Error e) StatusBadRequest, true)
  | LibraryError _ => None
  end.

(** The error branch of [HandlerWithError.ServeHTTP]: the response the
    client gets when the handler returned [e]. *)
Definition ServeHTTP_error (e : error) : Response :=
  match RespondError e with
  | Some (resp, true) => resp
  | _ => http_Error "Internal Server Error" StatusInternalServerError
  end.

(** ** The environment of one request *)

(** The fields of [url.URL] the handler reads. *)
Record URL := { Host : string; Path : string }.

(** The standard library as one request sees it.  A call that fails
    gives the message of its error.  [http_Get n u] is the outcome of
    the [n]-th call of [http.Get] (counted from 0) when it asks for
    [u]: an error, or the response body.  The two decoders are
    [json.NewDecoder(resp.Body).Decode] at its two target types, and
    [Encode] is [json.NewEncoder(w).Encode(queryResponse)], which fails
    when the response writer does. *)
Record World := {
  url_Parse : string -> string + URL;
  http_Get : nat -> string -> string + string;
  Decode_WellKnownNodeInfo : string -> string + WellKnownNodeInfo;
  Decode_Software : string -> string + Software;
  Encode : NodeInfo -> option string
}.

(** An [http.Request] as far as the handler looks at it: the result of
    [ParseForm] (the message of its error, if any) and the form values
    it leaves behind. *)
Record Request := {
  ParseForm : option string;
  Form : gmap string (list string)
}.

(** [url.Values.Get]: the first value of the key, or the empty string. *)
Definition Values_Get (v : gmap string (list string)) (key : string) : string :=
  match v !! key with
  | Some (x :: _) => x
  | _ => ""
  end.

(** What a run of the handler does to the outside, in order. *)
Inductive Event :=
  | Fetched (url : string)
  | CacheGet (key : string)
  | CacheSet (key : string) (sfw : Software).

(** The state a run threads: the global [cache] and the events so far. *)
Record State := { cache : Cache; events : list Event }.

(** How a computation ends: with a value, with a returned [error], or
    in a run-time panic. *)
Inductive Result (A : Type) :=
  | Ok (a : A)
  | Failed (e : error)
  | Panicked.
Arguments Ok {A} a.
Arguments Failed {A} e.
Arguments Panicked {A}.

Definition M (A : Type) : Type := State -> Result A * State.

Definition ret {A} (a : A) : M A := fun s => (Ok a, s).

Definition bind {A B} (m : M A) (k : A -> M B) : M B :=
  fun s =>
    match m s with
    | (Ok a, s') => k a s'
    | (Failed e, s') => (Failed e, s')
    | (Panicked, s') => (Panicked, s')
    end.

Notation "'let!' x ':=' m 'in' k" := (bind m (fun x => k))
  (at level 10, x name, m at level 100, k at level 200, only parsing).
Notation "'let!' ' p ':=' m 'in' k" := (bind m (fun x => let 'p := x in k))
  (at level 10, p pattern, m at level 100, k at level 200, only parsing).

(** [return err] *)
Definition fail {A} (e : error) : M A := fun s => (Failed e, s).

Definition emit (ev : Event) : M unit :=
  fun s => (Ok tt, {| cache := cache s; events := events s ++ [ev] |}).

(** A library call that returns [(value, err)], with
    [if err != nil { return err }] after it. *)
Definition try {A} (r : string + A) : M A :=
  match r with
  | inl msg => fail (LibraryError msg)
  | inr a => ret a
  end.

Definition cache_Get (now : Z) (key : string) : M (Software * bool) :=
  fun s =>
    let s := {| cache := cache s; events := events s ++ [CacheGet key] |} in
    match Cache_Get now key (cache s) with
    | Some (sfw, ok, c') => (Ok (sfw, ok), {| cache := c'; events := events s |})
    | None => (Panicked, s)
    end.

Definition cache_Set (now : Z) (key : string) (sfw : Software) : M unit :=
  fun s =>
    let s := {| cache := cache s; events := events s ++ [CacheSet key sfw] |} in
    match Cache_Set now key sfw (cache s) with
    | Some c' => (Ok tt, {| cache := c'; events := events s |})
    | None => (Panicked, s)
    end.

Definition http_get (W : World) (n : nat) (url : string) : M string :=
  let! _ := emit (Fetched url) in try (http_Get W n url).

(** ** The handler *)

Definition schema20 : string := "http://nodeinfo.diaspora.software/ns/schema/2.0".
Definition schema21 : string := "http://nodeinfo.diaspora.software/ns/schema/2.1".

(** The [switch link.Rel] statement, one pass of the loop body: the
    2.0 case falls through into the 2.1 case, whose [break] ends the
    [switch] (the innermost statement it is in), not the [for]. *)
Definition switchRel (nodeInfoUrl : string) (link : Link) : string :=
  if String.eqb (Rel link) schema20 then Href link
  else if String.eqb (Rel link) schema21 then Href link
  else nodeInfoUrl.

(** [for _, link := range wk.Links { switch ... }] from
    [var nodeInfoUrl string]. *)
Definition scanLinks (links : list Link) : string :=
  foldl switchRel "" links.

(** The domain the handler goes on with, from the parsed input. *)
Definition normalize (parsedDomain : URL) : string :=
  if String.eqb (Host parsedDomain) "" then Path parsedDomain
  else Host parsedDomain.

(** [nodeInfoRoute(w, r)], where [tGet] and [tSet] are what
    [time.Now()] reads inside [cache.Get] and [cache.Set].  The value of
    a run that returns [nil] is the [queryResponse] it encoded. *)
Definition nodeInfoRoute (W : World) (tGet tSet : Z) (r : Request) : M NodeInfo :=
  match ParseForm r with
  | Some err => fail (LibraryError err)
  | None =>
      let domain := Values_Get (Form r) "domain" in
      if String.eqb domain "" then fail (ErrMissingParam "domain")
      else
        match url_Parse W domain with
        | inl _ => fail (ErrBadRequest ("not an url: " +:+ domain))
        | inr parsedDomain =>
            let domain := normalize parsedDomain in
            let! '(sfw, ok) := cache_Get tGet domain in
            let! queryResponse :=
              (if ok : bool then
                 ret {| Domain := domain; NodeInfo_Software := sfw |}
               else
                 let! body1 := http_get W 0 ("https://" +:+ domain +:+ "/.well-known/nodeinfo") in
                 let! wk := try (Decode_WellKnownNodeInfo W body1) in
                 let nodeInfoUrl := scanLinks (Links wk) in
                 if (0 <? String.length nodeInfoUrl)%nat then
                   let! body2 := http_get W 1 nodeInfoUrl in
                   let! resInfo := try (Decode_Software W body2) in
                   let! _ := cache_Set tSet domain resInfo in
                   ret {| Domain := domain; NodeInfo_Software := resInfo |}
                 else
                   ret {| Domain := domain; NodeInfo_Software := zeroSoftware |}) in
            match Encode W queryResponse with
            | Some err => fail (LibraryError err)
            | None => ret queryResponse
            end
        end
  end.

(** ** Vocabulary of the statements *)

(** The cache [Set] leaves behind: both maps exist and hold the new
    entry. *)
Definition stored (now : Z) (key : string) (sfw : Software) (c : Cache) : Cache :=
  {| TTL := TTL c;
     Data := Some (<[key := sfw]> (default ∅ (Data c)));
     Age := Some (<[key := now]> (default ∅ (Age c))) |}.

(** Calls on the cache, each with the reading of the clock it sees. *)
Inductive Op :=
  | OpGet (now : Z) (key : string)
  | OpSet (now : Z) (key : string) (sfw : Software).

(** One call: the cache afterwards and, for a [Get], its key and its
    [foundAndNotStale] result. *)
Definition apply_op (op : Op) (c : Cache) : option (Cache * list (string * bool)) :=
  match op with
  | OpGet now key =>
      '(_, found, c') ← Cache_Get now key c; Some (c', [(key, found)])
  | OpSet now key sfw =>
      c' ← Cache_Set now key sfw c; Some (c', [])
  end.

(** A sequence of calls, with the results of its [Get]s in order. *)
Fixpoint run (ops : list Op) (c : Cache) : option (Cache * list (string * bool)) :=
  match ops with
  | [] => Some (c, [])
  | op :: ops =>
      '(c1, out1) ← apply_op op c;
      '(c2, out2) ← run ops c1;
      Some (c2, out1 ++ out2)
  end.

(** The calls that may follow a reading [t0] of the clock without
    writing key [d]: any [Get] at a reading not before [t0], and any
    [Set] of another key. *)
Definition bystander (t0 : Z) (d : string) (op : Op) : Prop :=
  match op with
  | OpGet now _ => monotonic now /\ t0 <= now
  | OpSet _ key _ => key <> d
  end.

(** A link the scan reacts to. *)
Definition recognized (link : Link) : bool :=
  String.eqb (Rel link) schema20 || String.eqb (Rel link) schema21.

(** The links of a document the scan reacts to, in document order. *)
Definition recognized_links (links : list Link) : list Link :=
  filter (fun link => recognized link = true) links.

(** The last statement of the handler, once [queryResponse] is
    complete: what it returns after encoding the response. *)
Definition respond (W : World) (queryResponse : NodeInfo) : Result NodeInfo :=
  match Encode W queryResponse with
  | Some err => Failed (LibraryError err)
  | None => Ok queryResponse
  end.

(** The address of the discovery document of a domain. *)
Definition wellKnown (domain : string) : string :=
  "https://" +:+ domain +:+ "/.well-known/nodeinfo".

(** Two caches that hold the same entries: same TTL, and every key
    with the same value and the same stamp (a nil map and an empty map
    hold the same). *)
Definition same_entries (c c' : Cache) : Prop :=
  TTL c' = TTL c /\
  (forall k, index (Data c') k = index (Data c) k) /\
  (forall k, index (Age c') k = index (Age c) k).

(** ** Sample data *)

Definition mastodon : Software := {| Name := "mastodon"; Version := "4.2.0" |}.

Definition hour : Z := 3600 * 1000000000.

(** The global [cache] as the program declares it. *)
Definition cache0 : Cache := {| TTL := 1 * hour; Data := None; Age := None |}.

(** A cache that resolved ["example.social"] at reading 1000. *)
Definition stamped : Cache :=
  {| TTL := hour;
     Data := Some {[ "example.social" := mastodon ]};
     Age := Some {[ "example.social" := 1000 ]} |}.

Definition later_calls : list Op :=
  [ OpGet (1001 + hour) "example.social";
    OpSet (1002 + hour) "other.example" mastodon;
    OpGet (5000 + hour) "other.example";
    OpGet (9000 + hour) "example.social" ].

(** A small URL parser for the examples: [getScheme] of [net/url],
    then the split of [//authority/path].  It leaves out what the
    examples do not need (query, fragment, escapes, user info, port
    checks), so it agrees with [url.Parse] on plain inputs only. *)
Definition is_letter (c : Ascii.ascii) : bool :=
  let n := Ascii.nat_of_ascii c in
  ((97 <=? n) && (n <=? 122) || (65 <=? n) && (n <=? 90))%nat.

Definition is_scheme_mark (c : Ascii.ascii) : bool :=
  let n := Ascii.nat_of_ascii c in
  ((48 <=? n) && (n <=? 57) || (n =? 43) || (n =? 45) || (n =? 46))%nat.

(** The loop of [getScheme] from index [i]: [inl] is its error,
    [inr None] no scheme, [inr (Some j)] a scheme that ends before the
    colon at [j]. *)
Fixpoint scheme_colon (i : nat) (s : string) : string + option nat :=
  match s with
  | EmptyString => inr None
  | String c s' =>
      if is_letter c then scheme_colon (S i) s'
      else if is_scheme_mark c then
        match i with O => inr None | _ => scheme_colon (S i) s' end
      else if Ascii.eqb c ":"%char then
        match i with O => inl "missing protocol scheme" | _ => inr (Some i) end
      else inr None
  end.

Definition getScheme (rawURL : string) : string + (string * string) :=
  match scheme_colon 0 rawURL with
  | inl err => inl err
  | inr None => inr ("", rawURL)
  | inr (Some i) =>
      inr (String.substring 0 i rawURL,
           String.substring (S i) (String.length rawURL - S i) rawURL)
  end.

(** The text before the first [/], and the rest from that [/] on. *)
Fixpoint cut_slash (s : string) : string * string :=
  match s with
  | EmptyString => ("", "")
  | String c s' =>
      if Ascii.eqb c "/"%char then ("", s)
      else let '(a, b) := cut_slash s' in (String c a, b)
  end.

Definition sample_Parse (rawURL : string) : string + URL :=
  match getScheme rawURL with
  | inl err => inl err
  | inr (scheme, rest) =>
      if String.eqb scheme "" then inr {| Host := ""; Path := rest |}
      else if String.prefix "//" rest then
        let '(authority, path) :=
          cut_slash (String.substring 2 (String.length rest - 2) rest) in
        inr {| Host := authority; Path := path |}
      else if String.prefix "/" rest then inr {| Host := ""; Path := rest |}
      else inr {| Host := ""; Path := "" |}
  end.

(** A world that serves the discovery document [doc] at hop 1 and
    [hop2] (an error or a body) at hop 2; the one body that decodes to
    a software identity is that of a Mastodon 4.2.0 instance. *)
Definition world_of (doc : WellKnownNodeInfo) (hop2 : string + string) : World :=
  {| url_Parse := sample_Parse;
     http_Get := fun n _ =>
       match n with O => inr "discovery document" | _ => hop2 end;
     Decode_WellKnownNodeInfo := fun _ => inr doc;
     Decode_Software := fun body =>
       if String.eqb body "mastodon 4.2.0 node info" then inr mastodon
       else inl "invalid character";
     Encode := fun _ => None |}.

(** A request [GET /node-info?domain=...]. *)
Definition request (domain : string) : Request :=
  {| ParseForm := None; Form := {[ "domain" := [domain] ]} |}.

(** A state with the program's initial cache and no events yet. *)
Definition state0 : State := {| cache := cache0; events := [] |}.

Definition link20 : Link :=
  {| Rel := schema20; Href := "https://example.social/nodeinfo/2.0" |}.
Definition link21 : Link :=
  {| Rel := schema21; Href := "https://example.social/nodeinfo/2.1" |}.
Definition link_other : Link :=
  {| Rel := "http://nodeinfo.diaspora.software/ns/schema/1.0";
     Href := "https://example.social/nodeinfo/1.0" |}.

(** Discovery documents. *)
Definition doc_other : WellKnownNodeInfo := {| Links := [link_other] |}.
Definition doc_21_only : WellKnownNodeInfo := {| Links := [link_other; link21] |}.
Definition doc_20_21_20 : WellKnownNodeInfo :=
  {| Links := [link20; link21; link20] |}.

(** What [url.Parse] makes of ["example.social"]. *)
Definition bare_domain : URL := {| Host := ""; Path := "example.social" |}.

(** ** The cache file *)

(** The cache file as [main] meets it: [os_Open] is the outcome of
    [os.Open(cacheFile)] (an error, or the text of the file),
    [Decode_cacheData] is [json.NewDecoder(fd).Decode(&cacheData)] on
    that text, [os_Create] the error of [os.Create(cacheFile)] if any,
    and [Encode_Data] is [json.NewEncoder(fd).Encode(cache.Data)]: an
    error, or the text it wrote. *)
Record Disk := {
  os_Open : string + string;
  Decode_cacheData : string -> string + gomap Software;
  os_Create : option string;
  Encode_Data : gomap Software -> string + string
}.

(** [main], from [os.Open] to [fd.Close]: a file that opens and
    decodes replaces the value map of the cache; either failure is
    logged and leaves the cache alone. *)
Definition populate (D : Disk) (c : Cache) : Cache :=
  match os_Open D with
  | inl _ => c
  | inr text =>
      match Decode_cacheData D text with
      | inl _ => c
      | inr cacheData => {| TTL := TTL c; Data := cacheData; Age := Age c |}
      end
  end.

(** The deferred function of [main]: [None] when the file could not be
    created, otherwise what encoding the value map into it gave. *)
Definition persist (D : Disk) (c : Cache) : option (string + string) :=
  match os_Create D with
  | Some _ => None
  | None => Some (Encode_Data D (Data c))
  end.

(** Every stamped key has a value. *)
Definition stamps_have_values (c : Cache) : Prop :=
  forall k, is_Some (index (Age c) k) -> is_Some (index (Data c) k).

(** The key and value of a [Set] among the calls. *)
Definition sets (k : string) (v : Software) (op : Op) : Prop :=
  match op with
  | OpGet _ _ => False
  | OpSet _ key sfw => key = k /\ sfw = v
  end.

(** More sample data. *)
Definition link21_no_href : Link := {| Rel := schema21; Href := "" |}.

Definition doc_empty_href : WellKnownNodeInfo :=
  {| Links := [link20; link21_no_href; link_other] |}.

Definition pleroma : Software := {| Name := "pleroma"; Version := "2.6.0" |}.

(** A cache file that holds the value map of [stamped]. *)
Definition disk_of_stamped : Disk :=
  {| os_Open := inr "snapshot of stamped";
     Decode_cacheData := fun text =>
       if String.eqb text "snapshot of stamped" then inr (Data stamped)
       else inl "unexpected end of JSON input";
     os_Create := None;
     Encode_Data := fun _ => inr "snapshot of stamped" |}.

Definition mixed_calls : list Op :=
  [ OpSet 1000 "example.social" mastodon;
    OpGet 2000 "other.example";
    OpSet 3000 "other.example" pleroma;
    OpGet (5000 + hour) "example.social" ].

(** * Properties *)

(** ** The clock *)

Section Clock.

Lemma wrap64_small z : minDuration <= z <= maxDuration -> wrap64 z = z.
Proof.
  unfold wrap64, minDuration, maxDuration. intros Hz.
  rewrite Z.mod_small; lia.
Qed.

Lemma wrap64_above z :
  maxDuration < z < 2 ^ 64 -> wrap64 z = z - 2 ^ 64.
Proof.
  unfold wrap64, maxDuration. intros Hz.
  replace (z + 2 ^ 63) with ((z - 2 ^ 63) + 1 * 2 ^ 64) by lia.
  rewrite Z.mod_add by lia. rewrite Z.mod_small; lia.
Qed.

Lemma wrap64_below z :
  - 2 ^ 64 < z < minDuration -> wrap64 z = z + 2 ^ 64.
Proof.
  unfold wrap64, minDuration. intros Hz.
  replace (z + 2 ^ 63) with ((z + 2 ^ 63 + 2 ^ 64) + (-1) * 2 ^ 64) by lia.
  rewrite Z.mod_add by lia. rewrite Z.mod_small; lia.
Qed.

Local Ltac ltb_cases :=
  repeat match goal with
         | |- context [?a <? ?b] => destruct (Z.ltb_spec a b)
         end;
  simpl; try lia.

(** On [int64] arguments [Time_Sub] is the difference clamped to the
    range of a [Duration]. *)
Lemma Time_Sub_clamp t u :
  minDuration <= t <= maxDuration -> minDuration <= u <= maxDuration ->
  Time_Sub t u = Z.max minDuration (Z.min maxDuration (t - u)).
Proof.
  intros Ht Hu. unfold Time_Sub.
  destruct (Z_lt_le_dec maxDuration (t - u)) as [Hhi|Hhi].
  - rewrite wrap64_above by (unfold minDuration, maxDuration in *; lia).
    unfold minDuration, maxDuration in *.
    ltb_cases.
  - destruct (Z_lt_le_dec (t - u) minDuration) as [Hlo|Hlo].
    + rewrite wrap64_below by (unfold minDuration, maxDuration in *; lia).
      unfold minDuration, maxDuration in *.
      ltb_cases.
    + rewrite wrap64_small by lia.
      unfold minDuration, maxDuration in *.
      ltb_cases.
Qed.

(** Between two readings of the monotonic clock nothing overflows. *)
Lemma Time_Sub_monotonic t u :
  monotonic t -> monotonic u -> Time_Sub t u = t - u.
Proof.
  unfold monotonic. intros Ht Hu.
  rewrite Time_Sub_clamp by (unfold minDuration, maxDuration in *; lia).
  unfold minDuration, maxDuration in *. lia.
Qed.

(** A later reading is never less far from a stamp. *)
Lemma Time_Sub_mono t t' u :
  monotonic t -> monotonic t' -> monotonic u -> t <= t' ->
  Time_Sub t u <= Time_Sub t' u.
Proof.
  intros Ht Ht' Hu Hle. rewrite !Time_Sub_monotonic by done. lia.
Qed.

End Clock.

(** ** The cache *)

Section CacheFacts.

Implicit Types (c : Cache) (key d : string) (sfw v : Software).

Lemma index_assign_eq {V} (m : gomap V) key (x : V) m' :
  assign m key x = Some m' -> index m' key = Some x.
Proof.
  destruct m as [g|]; simpl; [|done].
  intros [= <-]. simpl. apply lookup_insert_eq.
Qed.

Lemma index_assign_ne {V} (m : gomap V) key k (x : V) m' :
  assign m key x = Some m' -> key <> k -> index m' k = index m k.
Proof.
  destruct m as [g|]; simpl; [|done].
  intros [= <-] Hne. simpl. by apply lookup_insert_ne.
Qed.

Lemma assign_is_Some {V} (m : gomap V) key (x : V) :
  is_Some m -> is_Some (assign m key x).
Proof. intros [g ->]. simpl. eauto. Qed.

Lemma segfaultPrevention_TTL c : TTL (segfaultPrevention c) = TTL c.
Proof. done. Qed.

Lemma segfaultPrevention_Data c k :
  index (Data (segfaultPrevention c)) k = index (Data c) k.
Proof. simpl. destruct (Data c); simpl; [done | apply lookup_empty]. Qed.

Lemma segfaultPrevention_Age c k :
  index (Age (segfaultPrevention c)) k = index (Age c) k.
Proof. simpl. destruct (Age c); simpl; [done | apply lookup_empty]. Qed.

Lemma segfaultPrevention_maps c :
  is_Some (Data (segfaultPrevention c)) /\ is_Some (Age (segfaultPrevention c)).
Proof. simpl. destruct (Data c), (Age c); eauto. Qed.

(** Once both maps exist the guard changes nothing. *)
Lemma segfaultPrevention_id c :
  is_Some (Data c) -> is_Some (Age c) -> segfaultPrevention c = c.
Proof. destruct c as [T [?|] [?|]]; intros [? ?] [? ?]; by simplify_eq/=. Qed.

Lemma segfaultPrevention_idemp c :
  segfaultPrevention (segfaultPrevention c) = segfaultPrevention c.
Proof. apply segfaultPrevention_id; apply segfaultPrevention_maps. Qed.

Lemma Cache_Set_stored now key sfw c :
  Cache_Set now key sfw c = Some (stored now key sfw c).
Proof. unfold Cache_Set, stored. by destruct c as [T [?|] [?|]]. Qed.

(** The four ways through [Get]. *)
Lemma Cache_Get_stale now key c age :
  index (Age c) key = Some age -> TTL c < Time_Sub now age ->
  Cache_Get now key c = Some (zeroSoftware, false, segfaultPrevention c).
Proof.
  intros Hage Hold. unfold Cache_Get.
  rewrite segfaultPrevention_Age, Hage, segfaultPrevention_TTL.
  by destruct (Z.ltb_spec (TTL c) (Time_Sub now age)); [|lia].
Qed.

Lemma Cache_Get_fresh now key c age :
  index (Age c) key = Some age -> Time_Sub now age <= TTL c ->
  Cache_Get now key c =
    Some (match index (Data c) key with
          | Some sfw => (sfw, true)
          | None => (zeroSoftware, false)
          end, segfaultPrevention c).
Proof.
  intros Hage Hnew. unfold Cache_Get.
  rewrite segfaultPrevention_Age, Hage, segfaultPrevention_TTL.
  destruct (Z.ltb_spec (TTL c) (Time_Sub now age)); [lia|].
  rewrite segfaultPrevention_Data. by destruct (index (Data c) key).
Qed.

Lemma Cache_Get_adopt now key c sfw :
  index (Age c) key = None -> index (Data c) key = Some sfw ->
  Cache_Get now key c =
    Some (sfw, true,
          {| TTL := TTL c;
             Data := Data (segfaultPrevention c);
             Age := Some (<[key := now]> (default ∅ (Age c))) |}).
Proof.
  intros Hage Hdata. unfold Cache_Get.
  rewrite segfaultPrevention_Age, Hage, segfaultPrevention_Data, Hdata.
  by destruct c as [T dat [?|]].
Qed.

Lemma Cache_Get_absent now key c :
  index (Age c) key = None -> index (Data c) key = None ->
  Cache_Get now key c = Some (zeroSoftware, false, segfaultPrevention c).
Proof.
  intros Hage Hdata. unfold Cache_Get.
  by rewrite segfaultPrevention_Age, Hage, segfaultPrevention_Data, Hdata.
Qed.

(** No value, no hit, whatever the stamp map says. *)
Lemma Cache_Get_no_value now key c :
  index (Data c) key = None ->
  Cache_Get now key c = Some (zeroSoftware, false, segfaultPrevention c).
Proof.
  intros Hdata. destruct (index (Age c) key) as [age|] eqn:Hage.
  - destruct (Z_lt_le_dec (TTL c) (Time_Sub now age)).
    + by eapply Cache_Get_stale.
    + erewrite Cache_Get_fresh by eauto. by rewrite Hdata.
  - by apply Cache_Get_absent.
Qed.

(** [Get] always returns. *)
Lemma Cache_Get_total now key c : is_Some (Cache_Get now key c).
Proof.
  destruct (index (Age c) key) as [age|] eqn:Hage.
  - destruct (Z_lt_le_dec (TTL c) (Time_Sub now age)).
    + erewrite Cache_Get_stale; eauto.
    + erewrite Cache_Get_fresh; eauto.
  - destruct (index (Data c) key) as [sfw|] eqn:Hdata.
    + erewrite Cache_Get_adopt; eauto.
    + erewrite Cache_Get_absent; eauto.
Qed.

(** A [Get] that reports a miss leaves every entry as it was. *)
Lemma Cache_Get_miss now key c sfw c' :
  Cache_Get now key c = Some (sfw, false, c') ->
  sfw = zeroSoftware /\ c' = segfaultPrevention c.
Proof.
  destruct (index (Age c) key) as [age|] eqn:Hage.
  - destruct (Z_lt_le_dec (TTL c) (Time_Sub now age)).
    + erewrite Cache_Get_stale by eauto. by intros [= <- <-].
    + erewrite Cache_Get_fresh by eauto.
      destruct (index (Data c) key); by intros [= <- <-].
  - destruct (index (Data c) key) as [x|] eqn:Hdata.
    + erewrite Cache_Get_adopt by eauto. intros [=].
    + erewrite Cache_Get_absent by eauto. by intros [= <- <-].
Qed.

(** A [Get] that reports a hit returns what the value map holds. *)
Lemma Cache_Get_hit now key c sfw c' :
  Cache_Get now key c = Some (sfw, true, c') ->
  index (Data c) key = Some sfw.
Proof.
  destruct (index (Age c) key) as [age|] eqn:Hage.
  - destruct (Z_lt_le_dec (TTL c) (Time_Sub now age)).
    + erewrite Cache_Get_stale by eauto. intros [=].
    + erewrite Cache_Get_fresh by eauto.
      destruct (index (Data c) key); by intros [= <- <-].
  - destruct (index (Data c) key) as [x|] eqn:Hdata.
    + erewrite Cache_Get_adopt by eauto. by intros [= <- <-].
    + erewrite Cache_Get_absent by eauto. intros [=].
Qed.

End CacheFacts.

Section CacheClaims.

Implicit Types (c : Cache) (key d : string) (sfw v : Software).

Lemma stored_fixed now key sfw c :
  segfaultPrevention (stored now key sfw c) = stored now key sfw c.
Proof. apply segfaultPrevention_id; simpl; eauto. Qed.

Lemma stored_Age now key sfw c : index (Age (stored now key sfw c)) key = Some now.
Proof. simpl. apply lookup_insert_eq. Qed.

Lemma stored_Data now key sfw c : index (Data (stored now key sfw c)) key = Some sfw.
Proof. simpl. apply lookup_insert_eq. Qed.

(** What [Get] answers for a key that [Set] has just written, by the
    elapsed time the code computes. *)
Lemma Cache_Get_stored t0 t d v c :
  Cache_Get t d (stored t0 d v c) =
    Some (if TTL c <? Time_Sub t t0 then (zeroSoftware, false) else (v, true),
          stored t0 d v c).
Proof.
  destruct (Z.ltb_spec (TTL c) (Time_Sub t t0)).
  - erewrite Cache_Get_stale; [by rewrite stored_fixed | apply stored_Age | done].
  - erewrite Cache_Get_fresh; [|apply stored_Age | done].
    by rewrite stored_Data, stored_fixed.
Qed.

(** C2: for a TTL that is not negative, after [Set(d, v)] at reading
    [t0] a [Get(d)] with no time elapsed returns [(v, true)]; a
    [Get(d)] at reading [t] returns [(v, true)] when [t - t0 <= TTL]
    and the zero value with [false] when [t - t0 > TTL]. *)
Theorem Get_after_Set d v t0 t c :
  0 <= TTL c -> monotonic t0 -> monotonic t ->
  exists c1,
    Cache_Set t0 d v c = Some c1 /\
    Cache_Get t0 d c1 = Some (v, true, c1) /\
    (t - t0 <= TTL c -> Cache_Get t d c1 = Some (v, true, c1)) /\
    (TTL c < t - t0 -> Cache_Get t d c1 = Some (zeroSoftware, false, c1)).
Proof.
  intros HT Ht0 Ht. exists (stored t0 d v c).
  split; [apply Cache_Set_stored|].
  rewrite !Cache_Get_stored, !Time_Sub_monotonic by done.
  replace (t0 - t0) with 0 by lia.
  repeat split; intros; case_match; try done; lia.
Qed.

Lemma Get_after_Set_witness :
  0 <= TTL cache0 /\ monotonic 1000 /\ monotonic (1000 + hour) /\
  exists c1,
    Cache_Set 1000 "example.social" mastodon cache0 = Some c1 /\
    Cache_Get 1000 "example.social" c1 = Some (mastodon, true, c1) /\
    (1000 + hour - 1000 <= TTL cache0 ->
     Cache_Get (1000 + hour) "example.social" c1 = Some (mastodon, true, c1)) /\
    (TTL cache0 < 1000 + hour - 1000 ->
     Cache_Get (1000 + hour) "example.social" c1 = Some (zeroSoftware, false, c1)).
Proof.
  assert (H0 : 0 <= TTL cache0) by (simpl; unfold hour; lia).
  assert (H1 : monotonic 1000) by (unfold monotonic, maxDuration; lia).
  assert (H2 : monotonic (1000 + hour))
    by (unfold monotonic, maxDuration, hour; lia).
  split; [exact H0|]. split; [exact H1|]. split; [exact H2|].
  exact (Get_after_Set "example.social" mastodon 1000 (1000 + hour) cache0 H0 H1 H2).
Defined.

(** C3: a key with a value and no stamp is stamped by its first [Get],
    which returns the value; a [Get] later than the stamp by more than
    the TTL finds it stale. *)
Theorem lazy_adoption d v t1 t c :
  index (Data c) d = Some v -> index (Age c) d = None ->
  monotonic t1 -> monotonic t -> t1 + TTL c < t ->
  exists c1,
    Cache_Get t1 d c = Some (v, true, c1) /\
    index (Age c1) d = Some t1 /\
    index (Data c1) d = Some v /\
    Cache_Get t d c1 = Some (zeroSoftware, false, c1).
Proof.
  intros Hdata Hage Ht1 Ht Hlate.
  eexists. split; [by apply Cache_Get_adopt|].
  split; [simpl; apply lookup_insert_eq|].
  split; [rewrite <- Hdata; apply (segfaultPrevention_Data c d)|].
  erewrite Cache_Get_stale.
  - f_equal. f_equal. apply segfaultPrevention_id; simpl; eauto.
    destruct (Data c); eauto.
  - simpl. apply lookup_insert_eq.
  - simpl. rewrite Time_Sub_monotonic by done. lia.
Qed.

Lemma lazy_adoption_witness :
  index (Data {| TTL := hour; Data := Some {[ "example.social" := mastodon ]};
                 Age := None |}) "example.social" = Some mastodon /\
  exists c1,
    Cache_Get 1000 "example.social"
      {| TTL := hour; Data := Some {[ "example.social" := mastodon ]};
         Age := None |} = Some (mastodon, true, c1) /\
    index (Age c1) "example.social" = Some 1000 /\
    index (Data c1) "example.social" = Some mastodon /\
    Cache_Get (1001 + hour) "example.social" c1 = Some (zeroSoftware, false, c1).
Proof.
  split; [reflexivity|].
  apply (lazy_adoption "example.social" mastodon 1000 (1001 + hour)
           {| TTL := hour; Data := Some {[ "example.social" := mastodon ]};
              Age := None |}).
  - reflexivity.
  - reflexivity.
  - unfold monotonic, maxDuration; lia.
  - unfold monotonic, maxDuration, hour; lia.
  - simpl; unfold hour; lia.
Defined.

(** C8: a [Get] of a key whose stamp is older than the TTL returns the
    zero value and [false] and writes nothing: the TTL, every stored
    value and every stamp are as before, the key's value and stamp
    among them, and a cache whose value map exists is left identical. *)
Theorem Get_stale_writes_nothing d age now c :
  index (Age c) d = Some age -> TTL c < Time_Sub now age ->
  exists c',
    Cache_Get now d c = Some (zeroSoftware, false, c') /\
    TTL c' = TTL c /\
    (forall k, index (Data c') k = index (Data c) k) /\
    (forall k, index (Age c') k = index (Age c) k) /\
    index (Age c') d = Some age /\
    Age c' = Age c /\
    (is_Some (Data c) -> c' = c).
Proof.
  intros Hage Hold. exists (segfaultPrevention c).
  split; [by eapply Cache_Get_stale|].
  split; [done|].
  split; [apply segfaultPrevention_Data|].
  split; [apply segfaultPrevention_Age|].
  split; [by rewrite segfaultPrevention_Age|].
  assert (is_Some (Age c)) as [a Ha].
  { destruct (Age c); [eauto | done]. }
  split; [simpl; by rewrite Ha|].
  intros Hdata. apply segfaultPrevention_id; [done | rewrite Ha; eauto].
Qed.

Lemma Get_stale_writes_nothing_witness :
  index (Age {| TTL := hour;
                Data := Some {[ "example.social" := mastodon ]};
                Age := Some {[ "example.social" := 1000 ]} |})
    "example.social" = Some 1000 /\
  hour < Time_Sub (1001 + hour) 1000 /\
  Cache_Get (1001 + hour) "example.social"
    {| TTL := hour;
       Data := Some {[ "example.social" := mastodon ]};
       Age := Some {[ "example.social" := 1000 ]} |} =
    Some (zeroSoftware, false,
          {| TTL := hour;
             Data := Some {[ "example.social" := mastodon ]};
             Age := Some {[ "example.social" := 1000 ]} |}).
Proof.
  assert (Hage : index (Age {| TTL := hour;
                Data := Some {[ "example.social" := mastodon ]};
                Age := Some {[ "example.social" := 1000 ]} |})
    "example.social" = Some 1000) by reflexivity.
  assert (Hold : hour < Time_Sub (1001 + hour) 1000) by (vm_compute; reflexivity).
  split; [exact Hage|]. split; [exact Hold|].
  destruct (Get_stale_writes_nothing "example.social" 1000 (1001 + hour) _
              Hage Hold) as (c' & Hget & _ & _ & _ & _ & _ & Hsame).
  rewrite Hget, Hsame; [reflexivity | simpl; eauto].
Defined.

(** C9: on any cache, the zero value and a bulk-loaded one with no
    stamp map included, [Get] and [Set] return (no panic) and leave
    both maps in existence, although an assignment into a nil map
    panics; a [Get] of a key the value map does not hold returns the
    zero value and [false]. *)
Theorem nil_maps_never_fault now key sfw c :
  (exists r c', Cache_Get now key c = Some (r, c') /\
                is_Some (Data c') /\ is_Some (Age c')) /\
  (exists c', Cache_Set now key sfw c = Some c' /\
              is_Some (Data c') /\ is_Some (Age c')) /\
  (index (Data c) key = None ->
   Cache_Get now key c = Some (zeroSoftware, false, segfaultPrevention c)) /\
  Cache_Get now key {| TTL := TTL c; Data := None; Age := None |} =
    Some (zeroSoftware, false, {| TTL := TTL c; Data := Some ∅; Age := Some ∅ |}) /\
  assign (Data {| TTL := TTL c; Data := None; Age := None |}) key sfw = None /\
  assign (Age {| TTL := TTL c; Data := Data c; Age := None |}) key now = None.
Proof.
  split; [|split; [|split; [|done]]].
  - destruct (index (Age c) key) as [age|] eqn:Hage.
    + destruct (Z_lt_le_dec (TTL c) (Time_Sub now age)).
      * erewrite Cache_Get_stale by eauto.
        do 2 eexists. split; [done|]. apply segfaultPrevention_maps.
      * erewrite Cache_Get_fresh by eauto.
        do 2 eexists. split; [done|]. apply segfaultPrevention_maps.
    + destruct (index (Data c) key) as [x|] eqn:Hdata.
      * erewrite Cache_Get_adopt by eauto.
        do 2 eexists. split; [done|].
        split; [apply segfaultPrevention_maps | simpl; eauto].
      * erewrite Cache_Get_absent by eauto.
        do 2 eexists. split; [done|]. apply segfaultPrevention_maps.
  - rewrite Cache_Set_stored. eexists. split; [done|]. simpl; eauto.
  - apply Cache_Get_no_value.
Qed.

(** What a [Get] may change: nothing but the stamp of its own key,
    and that only where there was none. *)
Lemma Cache_Get_effect now key c r c' :
  Cache_Get now key c = Some (r, c') ->
  TTL c' = TTL c /\
  (forall k, index (Data c') k = index (Data c) k) /\
  (forall k, k <> key -> index (Age c') k = index (Age c) k) /\
  (forall a, index (Age c) key = Some a -> index (Age c') key = Some a).
Proof.
  destruct (index (Age c) key) as [age|] eqn:Hage.
  - assert (Cache_Get now key c = Some (r, segfaultPrevention c) -> c' = segfaultPrevention c -> 
            TTL c' = TTL c /\
            (forall k, index (Data c') k = index (Data c) k) /\
            (forall k, k <> key -> index (Age c') k = index (Age c) k) /\
            (forall a, Some age = Some a -> index (Age c') key = Some a)) as Hsp.
    { intros _ ->. split; [done|]. split; [apply segfaultPrevention_Data|].
      split; [intros; apply segfaultPrevention_Age|].
      intros a <-. by rewrite segfaultPrevention_Age. }
    destruct (Z_lt_le_dec (TTL c) (Time_Sub now age)).
    + erewrite Cache_Get_stale by eauto. intros [= <- <-]. apply Hsp; [|done].
      by eapply Cache_Get_stale.
    + erewrite Cache_Get_fresh by eauto. intros [= <- <-]. apply Hsp; [|done].
      by eapply Cache_Get_fresh.
  - destruct (index (Data c) key) as [x|] eqn:Hdata.
    + erewrite Cache_Get_adopt by eauto. intros [= <- <-].
      split; [done|]. split; [apply segfaultPrevention_Data|].
      split; [|done]. intros k Hk. simpl. rewrite lookup_insert_ne by done.
      destruct (Age c); [done | apply lookup_empty].
    + erewrite Cache_Get_absent by eauto. intros [= <- <-].
      split; [done|]. split; [apply segfaultPrevention_Data|].
      split; [intros; apply segfaultPrevention_Age | done].
Qed.

(** A stale key stays stale, with its stamp, across any call that is
    not a [Set] of that key; a [Get] of it in that state finds
    nothing. *)
Lemma apply_op_bystander d age t0 c op :
  monotonic age -> monotonic t0 ->
  index (Age c) d = Some age -> TTL c < Time_Sub t0 age ->
  bystander t0 d op ->
  exists c' out,
    apply_op op c = Some (c', out) /\
    index (Age c') d = Some age /\ TTL c' = TTL c /\
    (forall found, (d, found) ∈ out -> found = false).
Proof.
  intros Hage Ht0 Hstamp Hold Hop.
  destruct op as [now key | now key sfw]; simpl in *.
  - destruct Hop as [Hnow Hle].
    destruct (decide (key = d)) as [->|Hne].
    + erewrite Cache_Get_stale; [|done|].
      * simpl. do 2 eexists. split; [done|].
        split; [by rewrite segfaultPrevention_Age|]. split; [done|].
        by intros found [= ->]%list_elem_of_singleton.
      * pose proof (Time_Sub_mono t0 now age Ht0 Hnow Hage Hle). lia.
    + destruct (Cache_Get_total now key c) as [[[s f] c'] Hget].
      rewrite Hget. simpl. do 2 eexists. split; [done|].
      destruct (Cache_Get_effect _ _ _ _ _ Hget) as (HT & _ & HA & _).
      split; [by rewrite HA|]. split; [done|].
      intros found [= ? ?]%list_elem_of_singleton. congruence.
  - rewrite Cache_Set_stored. simpl. do 2 eexists. split; [done|].
    split; [|split; [done|]].
    + simpl. rewrite lookup_insert_ne by done.
      destruct (Age c); [done | discriminate].
    + by intros found ?%not_elem_of_nil.
Qed.

(** C10: once the stamp of [d] is older than the TTL, through every
    sequence of later [Get]s (of any key) and [Set]s of other keys
    each [Get(d)] returns [false] and the stamp of [d] stays as it
    was; a [Set(d, v)] then makes [d] visible again for the TTL.
    No [Get] changes a stamp that is recorded.  Moreover a [Get] that
    returns [true] returns the value the value map holds for the key,
    and a key with no stored value is never found, stamped or not. *)
Theorem stale_until_Set d age t0 c ops :
  monotonic age -> monotonic t0 ->
  index (Age c) d = Some age -> TTL c < Time_Sub t0 age ->
  Forall (bystander t0 d) ops ->
  (exists c' out,
      run ops c = Some (c', out) /\
      (forall found, (d, found) ∈ out -> found = false) /\
      index (Age c') d = Some age /\
      (forall v ts t, monotonic ts -> monotonic t -> t - ts <= TTL c ->
         exists c1, Cache_Set ts d v c' = Some c1 /\
                    Cache_Get t d c1 = Some (v, true, c1))) /\
  (forall now key c0 stamp r c1,
      index (Age c0) key = Some stamp ->
      Cache_Get now key c0 = Some (r, c1) ->
      index (Age c1) key = Some stamp) /\
  (forall now key c0 sfw c1,
      Cache_Get now key c0 = Some (sfw, true, c1) ->
      index (Data c0) key = Some sfw) /\
  (forall now key c0,
      index (Data c0) key = None ->
      exists c1, Cache_Get now key c0 = Some (zeroSoftware, false, c1)).
Proof.
  intros Hage Ht0 Hstamp Hold Hops.
  split; [|split; [|split]].
  - assert (exists c' out,
               run ops c = Some (c', out) /\
               (forall found, (d, found) ∈ out -> found = false) /\
               index (Age c') d = Some age /\ TTL c' = TTL c)
      as (c' & out & Hrun & Hout & Hstamp' & HT).
    { revert c Hstamp Hold.
      induction Hops as [|op ops Hop Hops IH]; intros c Hstamp Hold.
      - exists c, []. repeat split; try done. by intros found ?%not_elem_of_nil.
      - destruct (apply_op_bystander d age t0 c op)
          as (c1 & out1 & Hstep & Hstamp1 & HT1 & Hout1); try done.
        destruct (IH c1) as (c2 & out2 & Hrun & Hout2 & Hstamp2 & HT2);
          [done | by rewrite HT1 |].
        exists c2, (out1 ++ out2). simpl. rewrite Hstep. simpl.
        rewrite Hrun. simpl. split; [done|].
        split; [|split; [done | congruence]].
        intros found [?|?]%elem_of_app; eauto. }
    exists c', out. repeat split; try done.
    intros v ts t Hts Ht Hle.
    exists (stored ts d v c'). split; [apply Cache_Set_stored|].
    rewrite Cache_Get_stored, Time_Sub_monotonic by done.
    rewrite HT. case_match; [lia | done].
  - intros now key c0 stamp r c1 Hst Hget.
    by apply (Cache_Get_effect _ _ _ _ _ Hget).
  - intros now key c0 sfw c1. apply Cache_Get_hit.
  - intros now key c0 Hnone. eexists. by apply Cache_Get_no_value.
Qed.

Lemma stale_until_Set_witness :
  hour < Time_Sub (1001 + hour) 1000 /\
  Forall (bystander (1001 + hour) "example.social") later_calls /\
  exists c' out,
    run later_calls stamped = Some (c', out) /\
    (forall found, ("example.social", found) ∈ out -> found = false) /\
    index (Age c') "example.social" = Some 1000.
Proof.
  assert (Hage : monotonic 1000) by (unfold monotonic, maxDuration; lia).
  assert (Ht0 : monotonic (1001 + hour))
    by (unfold monotonic, maxDuration, hour; lia).
  assert (Hstamp : index (Age stamped) "example.social" = Some 1000)
    by reflexivity.
  assert (Hold : TTL stamped < Time_Sub (1001 + hour) 1000)
    by (vm_compute; reflexivity).
  assert (Hops : Forall (bystander (1001 + hour) "example.social") later_calls).
  { unfold later_calls, monotonic, maxDuration, hour.
    repeat constructor; simpl; (lia || discriminate). }
  split; [exact Hold|]. split; [exact Hops|].
  destruct (stale_until_Set "example.social" 1000 (1001 + hour) stamped
              later_calls Hage Ht0 Hstamp Hold Hops)
    as [(c' & out & Hrun & Hout & Hkeep & _) _].
  exists c', out. split; [exact Hrun|]. split; [exact Hout | exact Hkeep].
Defined.

End CacheClaims.


(** ** The link scan *)

Section Scan.

Implicit Types (link l : Link) (links : list Link).

Lemma switchRel_recognized acc l :
  switchRel acc l = if recognized l then Href l else acc.
Proof.
  unfold switchRel, recognized.
  destruct (String.eqb (Rel l) schema20), (String.eqb (Rel l) schema21); done.
Qed.

Lemma recognized_Rel l :
  recognized l = true <-> Rel l = schema20 \/ Rel l = schema21.
Proof.
  unfold recognized. rewrite orb_true_iff, !String.eqb_eq. done.
Qed.

(** The loop keeps what the last link it passed left behind. *)
Lemma scanLinks_snoc links l :
  scanLinks (links ++ [l]) =
    if recognized l then Href l else scanLinks links.
Proof.
  unfold scanLinks. rewrite foldl_app. simpl. apply switchRel_recognized.
Qed.

Lemma scanLinks_none links :
  (forall l, l ∈ links -> recognized l = false) -> scanLinks links = "".
Proof.
  induction links as [|l links IH] using rev_ind; intros Hno; [done|].
  rewrite scanLinks_snoc, Hno
    by (apply elem_of_app; right; by apply list_elem_of_singleton).
  apply IH. intros l' Hl'. apply Hno, elem_of_app. by left.
Qed.

Lemma scanLinks_some links :
  (exists l, l ∈ links /\ recognized l = true) ->
  exists l, l ∈ links /\ recognized l = true /\ scanLinks links = Href l.
Proof.
  induction links as [|l links IH] using rev_ind; intros (l0 & Hin & Hrec).
  - by apply not_elem_of_nil in Hin.
  - rewrite scanLinks_snoc. destruct (recognized l) eqn:Hl.
    + exists l. split; [|done]. apply elem_of_app. right. by apply list_elem_of_singleton.
    + destruct IH as (l1 & Hin1 & Hrec1 & Hscan).
      * exists l0. split; [|done].
        apply elem_of_app in Hin as [Hin | Hin%list_elem_of_singleton]; [done|].
        congruence.
      * exists l1. split; [|done]. apply elem_of_app. by left.
Qed.

(** What the scan leaves is the [href] of the last recognized link. *)
Lemma scanLinks_last_recognized links l :
  last (recognized_links links) = Some l -> scanLinks links = Href l.
Proof.
  unfold recognized_links.
  induction links as [|x links IH] using rev_ind; [done|].
  rewrite filter_app, scanLinks_snoc.
  destruct (recognized x) eqn:Hx.
  - rewrite filter_cons_True by done. rewrite filter_nil, last_snoc.
    by intros [= ->].
  - rewrite filter_cons_False by (by rewrite Hx). rewrite filter_nil, app_nil_r.
    apply IH.
Qed.

End Scan.


(** ** The handler *)

Lemma length_pos (x : string) : (0 <? String.length x)%nat = negb (String.eqb x "").
Proof. by destruct x. Qed.

Lemma same_entries_segfaultPrevention c : same_entries c (segfaultPrevention c).
Proof.
  split; [done|]. split; intros k;
    [apply segfaultPrevention_Data | apply segfaultPrevention_Age].
Qed.

Section Miss.

(** A run that gets past the input checks, misses the cache and is
    served a discovery document. *)
Variables (W : World) (tGet tSet : Z) (r : Request) (s : State).
Variables (parsedDomain : URL) (sfw0 : Software) (c1 : Cache).
Variables (body1 : string) (wk : WellKnownNodeInfo).

Local Abbreviation domain := (normalize parsedDomain).

Hypothesis Hform : ParseForm r = None.
Hypothesis Hinput : Values_Get (Form r) "domain" <> "".
Hypothesis Hparse : url_Parse W (Values_Get (Form r) "domain") = inr parsedDomain.
Hypothesis Hmiss : Cache_Get tGet domain (cache s) = Some (sfw0, false, c1).
Hypothesis Hhop1 : http_Get W 0 (wellKnown domain) = inr body1.
Hypothesis Hdoc : Decode_WellKnownNodeInfo W body1 = inr wk.

(** Up to the scan. *)
Lemma route_scan :
  nodeInfoRoute W tGet tSet r s =
    (let nodeInfoUrl := scanLinks (Links wk) in
     let s1 := {| cache := c1;
                  events := events s ++ [CacheGet domain; Fetched (wellKnown domain)] |} in
     if String.eqb nodeInfoUrl "" then
       (respond W {| Domain := domain; NodeInfo_Software := zeroSoftware |}, s1)
     else
       let s2 := {| cache := c1; events := events s1 ++ [Fetched nodeInfoUrl] |} in
       match http_Get W 1 nodeInfoUrl with
       | inl msg => (Failed (LibraryError msg), s2)
       | inr body2 =>
           match Decode_Software W body2 with
           | inl msg => (Failed (LibraryError msg), s2)
           | inr resInfo =>
               (respond W {| Domain := domain; NodeInfo_Software := resInfo |},
                {| cache := stored tSet domain resInfo c1;
                   events := events s2 ++ [CacheSet domain resInfo] |})
           end
       end).
Proof.
  unfold nodeInfoRoute. rewrite Hform.
  destruct (String.eqb_spec (Values_Get (Form r) "domain") ""); [done|].
  rewrite Hparse.
  unfold bind, cache_Get, http_get, bind, emit, try, ret, fail; simpl.
  rewrite Hmiss. simpl. fold (wellKnown domain). rewrite Hhop1, Hdoc.
  rewrite length_pos. rewrite <- app_assoc. simpl.
  destruct (String.eqb (scanLinks (Links wk)) ""); simpl.
  - unfold respond. by destruct (Encode W _).
  - destruct (http_Get W 1 _) as [msg|body2]; [done|].
    destruct (Decode_Software W body2) as [msg|resInfo]; [done|].
    unfold cache_Set. simpl. rewrite Cache_Set_stored.
    unfold respond. by destruct (Encode W _).
Qed.

(** A miss writes no entry. *)
Lemma miss_same_entries : same_entries (cache s) c1.
Proof.
  destruct (Cache_Get_miss _ _ _ _ _ Hmiss) as [_ ->].
  apply same_entries_segfaultPrevention.
Qed.

(** C1, amended: the scan reacts to the 2.0 and the 2.1 identifier
    alike, with no preference between them.  With no recognized link
    it leaves the URL empty; with one or more it leaves the [href] of
    a recognized link of the document: a 2.1 link when the document
    has a 2.1 and no 2.0 link, a 2.0 link when it has a 2.0 and no 2.1
    link, the one recognized link when there is exactly one, and the
    common [href] whenever the first and the last recognized link have
    the same; when that URL is not empty it is the URL hop 2 fetches. *)
Theorem hop2_link_choice :
  ((forall l, l ∈ Links wk -> recognized l = false) ->
   scanLinks (Links wk) = "") /\
  ((exists l, l ∈ Links wk /\ recognized l = true) ->
   exists l, l ∈ Links wk /\ recognized l = true /\
             scanLinks (Links wk) = Href l) /\
  ((exists l, l ∈ Links wk /\ Rel l = schema21) ->
   (forall l, l ∈ Links wk -> Rel l <> schema20) ->
   exists l, l ∈ Links wk /\ Rel l = schema21 /\
             scanLinks (Links wk) = Href l) /\
  ((exists l, l ∈ Links wk /\ Rel l = schema20) ->
   (forall l, l ∈ Links wk -> Rel l <> schema21) ->
   exists l, l ∈ Links wk /\ Rel l = schema20 /\
             scanLinks (Links wk) = Href l) /\
  (scanLinks (Links wk) <> "" ->
   exists res s' rest,
     nodeInfoRoute W tGet tSet r s = (res, s') /\
     events s' =
       events s ++ [CacheGet domain; Fetched (wellKnown domain);
                    Fetched (scanLinks (Links wk))] ++ rest) /\
  (forall l, recognized_links (Links wk) = [l] ->
             scanLinks (Links wk) = Href l) /\
  (forall first final,
     head (recognized_links (Links wk)) = Some first ->
     last (recognized_links (Links wk)) = Some final ->
     Href first = Href final ->
     scanLinks (Links wk) = Href first).
Proof.
  split; [apply scanLinks_none|]. split; [apply scanLinks_some|].
  split; [|split; [|split; [|split]]].
  - intros (l & Hin & Hrel) Hno.
    destruct (scanLinks_some (Links wk)) as (l' & Hin' & Hrec & Hscan).
    { exists l. split; [done|]. apply recognized_Rel. by right. }
    exists l'. split; [done|]. split; [|done].
    apply recognized_Rel in Hrec as [H20|H21]; [by apply Hno in Hin' | done].
  - intros (l & Hin & Hrel) Hno.
    destruct (scanLinks_some (Links wk)) as (l' & Hin' & Hrec & Hscan).
    { exists l. split; [done|]. apply recognized_Rel. by left. }
    exists l'. split; [done|]. split; [|done].
    apply recognized_Rel in Hrec as [H20|H21]; [done | by apply Hno in Hin'].
  - intros Hurl. rewrite route_scan. cbv zeta.
    destruct (String.eqb_spec (scanLinks (Links wk)) ""); [done|]. simpl.
    destruct (http_Get W 1 _) as [msg|body2].
    { do 2 eexists. exists []. split; [done|]. simpl. by rewrite <- app_assoc. }
    destruct (Decode_Software W body2) as [msg|resInfo].
    { do 2 eexists. exists []. split; [done|]. simpl. by rewrite <- app_assoc. }
    do 2 eexists. exists [CacheSet domain resInfo]. split; [done|].
    simpl. by rewrite <- !app_assoc.
  - intros l Hone. apply scanLinks_last_recognized. by rewrite Hone.
  - intros first final _ Hlast ->. by apply scanLinks_last_recognized.
Qed.

(** C4: when no link of the discovery document is recognized, the
    handler goes straight to its response, whose software name and
    version are empty, and returns [nil] (unless writing the response
    fails); it has fetched the discovery document only, has not called
    [Set], and the cache holds the entries it held. *)
Theorem no_recognized_link :
  (forall l, l ∈ Links wk -> recognized l = false) ->
  exists s',
    nodeInfoRoute W tGet tSet r s =
      (respond W {| Domain := domain; NodeInfo_Software := zeroSoftware |}, s') /\
    (Encode W {| Domain := domain; NodeInfo_Software := zeroSoftware |} = None ->
     respond W {| Domain := domain; NodeInfo_Software := zeroSoftware |} =
       Ok {| Domain := domain;
             NodeInfo_Software := {| Name := ""; Version := "" |} |}) /\
    events s' = events s ++ [CacheGet domain; Fetched (wellKnown domain)] /\
    same_entries (cache s) (cache s').
Proof.
  intros Hno. rewrite route_scan. cbv zeta.
  rewrite (scanLinks_none _ Hno). simpl.
  eexists. split; [done|].
  split; [by unfold respond; intros ->|].
  split; [done | apply miss_same_entries].
Qed.

(** C5: when the fetch of hop 2 or the decoding of its body fails, the
    handler returns that error; it has not called [Set], and the cache
    holds the entries it held, value and stamp, for every key. *)
Theorem hop2_failure_keeps_cache msg :
  scanLinks (Links wk) <> "" ->
  (http_Get W 1 (scanLinks (Links wk)) = inl msg \/
   exists body2,
     http_Get W 1 (scanLinks (Links wk)) = inr body2 /\
     Decode_Software W body2 = inl msg) ->
  exists s',
    nodeInfoRoute W tGet tSet r s = (Failed (LibraryError msg), s') /\
    events s' =
      events s ++ [CacheGet domain; Fetched (wellKnown domain);
                   Fetched (scanLinks (Links wk))] /\
    same_entries (cache s) (cache s') /\
    index (Data (cache s')) domain = index (Data (cache s)) domain /\
    index (Age (cache s')) domain = index (Age (cache s)) domain.
Proof.
  intros Hurl Hfail. rewrite route_scan. cbv zeta.
  destruct (String.eqb_spec (scanLinks (Links wk)) ""); [done|]. simpl.
  pose proof miss_same_entries as Hsame.
  assert (exists s',
             match http_Get W 1 (scanLinks (Links wk)) with
             | inl msg0 => (Failed (LibraryError msg0), s')
             | inr body2 =>
                 match Decode_Software W body2 with
                 | inl msg0 => (Failed (LibraryError msg0), s')
                 | inr resInfo =>
                     (respond W {| Domain := domain; NodeInfo_Software := resInfo |},
                      {| cache := stored tSet domain resInfo c1;
                         events := events s' ++ [CacheSet domain resInfo] |})
                 end
             end = (Failed (LibraryError msg), s') /\
             s' = {| cache := c1;
                     events := (events s ++ [CacheGet domain; Fetched (wellKnown domain)])
                               ++ [Fetched (scanLinks (Links wk))] |})
    as (s' & Heq & ->).
  { eexists. split; [|done].
    destruct Hfail as [-> | (body2 & -> & ->)]; done. }
  eexists. split; [exact Heq|]. simpl.
  split; [by rewrite <- app_assoc|].
  split; [done|]. destruct Hsame as (_ & HD & HA). by rewrite HD, HA.
Qed.

End Miss.

Section Input.

Variables (W : World) (tGet tSet : Z) (r : Request) (s : State).

Local Abbreviation input := (Values_Get (Form r) "domain").

Lemma route_ParseForm_error msg :
  ParseForm r = Some msg ->
  nodeInfoRoute W tGet tSet r s = (Failed (LibraryError msg), s).
Proof. intros Hform. unfold nodeInfoRoute. by rewrite Hform. Qed.

Lemma route_missing_param :
  ParseForm r = None -> input = "" ->
  nodeInfoRoute W tGet tSet r s = (Failed (ErrMissingParam "domain"), s).
Proof. intros Hform Hinput. unfold nodeInfoRoute. by rewrite Hform, Hinput. Qed.

Lemma route_bad_request msg :
  ParseForm r = None -> input <> "" -> url_Parse W input = inl msg ->
  nodeInfoRoute W tGet tSet r s =
    (Failed (ErrBadRequest ("not an url: " +:+ input)), s).
Proof.
  intros Hform Hinput Hparse. unfold nodeInfoRoute. rewrite Hform.
  destruct (String.eqb_spec input ""); [done|]. by rewrite Hparse.
Qed.

Lemma respond_cases queryResponse :
  respond W queryResponse = Ok queryResponse \/
  exists msg, respond W queryResponse = Failed (LibraryError msg).
Proof. unfold respond. destruct (Encode W _); eauto. Qed.

(** Every run on an input that parses: it looks the normalized domain
    up in the cache first, fetches the discovery document of that
    domain if it fetches at all, answers for that domain, and fails
    with errors of the library only. *)
Lemma route_parsed u :
  ParseForm r = None -> input <> "" -> url_Parse W input = inr u ->
  exists res s' rest,
    nodeInfoRoute W tGet tSet r s = (res, s') /\
    events s' = events s ++ CacheGet (normalize u) :: rest /\
    (forall url rest', rest = Fetched url :: rest' -> url = wellKnown (normalize u)) /\
    match res with
    | Ok queryResponse => Domain queryResponse = normalize u
    | Failed e => exists msg, e = LibraryError msg
    | Panicked => False
    end.
Proof.
  intros Hform Hinput Hparse.
  destruct (Cache_Get_total tGet (normalize u) (cache s)) as [[[sfw ok] c1] Hget].
  destruct ok.
  { (* hit *)
    exists (respond W {| Domain := normalize u; NodeInfo_Software := sfw |}).
    eexists. exists []. split.
    - unfold nodeInfoRoute. rewrite Hform.
      destruct (String.eqb_spec input ""); [done|]. rewrite Hparse.
      unfold bind, cache_Get, ret, fail; simpl. rewrite Hget. simpl.
      unfold respond. by destruct (Encode W _).
    - split; [done|]. split; [done|].
      destruct (respond_cases {| Domain := normalize u; NodeInfo_Software := sfw |})
        as [-> | [msg ->]]; eauto. }
  destruct (http_Get W 0 (wellKnown (normalize u))) as [msg|body1] eqn:Hhop1.
  { exists (Failed (LibraryError msg)).
    eexists. exists [Fetched (wellKnown (normalize u))]. split.
    - unfold nodeInfoRoute. rewrite Hform.
      destruct (String.eqb_spec input ""); [done|]. rewrite Hparse.
      unfold bind, cache_Get, http_get, bind, emit, try, ret, fail; simpl.
      rewrite Hget. simpl. fold (wellKnown (normalize u)). by rewrite Hhop1.
    - simpl. rewrite <- app_assoc. split; [done|].
      split; [by intros ?? [= <- _] | eauto]. }
  destruct (Decode_WellKnownNodeInfo W body1) as [msg|wk] eqn:Hdoc.
  { exists (Failed (LibraryError msg)).
    eexists. exists [Fetched (wellKnown (normalize u))]. split.
    - unfold nodeInfoRoute. rewrite Hform.
      destruct (String.eqb_spec input ""); [done|]. rewrite Hparse.
      unfold bind, cache_Get, http_get, bind, emit, try, ret, fail; simpl.
      rewrite Hget. simpl. fold (wellKnown (normalize u)). by rewrite Hhop1, Hdoc.
    - simpl. rewrite <- app_assoc. split; [done|].
      split; [by intros ?? [= <- _] | eauto]. }
  rewrite (route_scan W tGet tSet r s u sfw c1 body1 wk) by done. cbv zeta.
  destruct (String.eqb (scanLinks (Links wk)) "").
  { do 2 eexists. exists [Fetched (wellKnown (normalize u))].
    split; [done|]. simpl. split; [done|]. split; [by intros ?? [= <- _]|].
    destruct (respond_cases {| Domain := normalize u; NodeInfo_Software := zeroSoftware |})
      as [-> | [msg ->]]; eauto. }
  destruct (http_Get W 1 _) as [msg|body2].
  { do 2 eexists. exists [Fetched (wellKnown (normalize u)); Fetched (scanLinks (Links wk))].
    split; [done|]. simpl. rewrite <- app_assoc. split; [done|].
    split; [by intros ?? [= <- _] | eauto]. }
  destruct (Decode_Software W body2) as [msg|resInfo].
  { do 2 eexists. exists [Fetched (wellKnown (normalize u)); Fetched (scanLinks (Links wk))].
    split; [done|]. simpl. rewrite <- app_assoc. split; [done|].
    split; [by intros ?? [= <- _] | eauto]. }
  do 2 eexists.
  exists [Fetched (wellKnown (normalize u)); Fetched (scanLinks (Links wk));
          CacheSet (normalize u) resInfo].
  split; [done|]. simpl. rewrite <- !app_assoc. split; [done|].
  split; [by intros ?? [= <- _]|].
  destruct (respond_cases {| Domain := normalize u; NodeInfo_Software := resInfo |})
    as [-> | [msg ->]]; eauto.
Qed.

(** C6: for a non-empty input that parses, the domain the handler
    works with (the key it looks up in the cache, the host whose
    discovery document it fetches, the domain of its response) is the
    path of the parsed URI when its host is empty and its host
    otherwise; so ["example.social"], which parses to a path alone, and
    ["https://example.social/path"], which parses to host
    ["example.social"], both give the domain ["example.social"]. *)
Theorem domain_normalization u :
  ParseForm r = None -> input <> "" -> url_Parse W input = inr u ->
  (Host u = "" -> normalize u = Path u) /\
  (Host u <> "" -> normalize u = Host u) /\
  (exists res s' rest,
      nodeInfoRoute W tGet tSet r s = (res, s') /\
      events s' = events s ++ CacheGet (normalize u) :: rest /\
      (forall url rest', rest = Fetched url :: rest' ->
                         url = wellKnown (normalize u)) /\
      (forall queryResponse, res = Ok queryResponse ->
                             Domain queryResponse = normalize u)) /\
  (input = "example.social" ->
   u = {| Host := ""; Path := "example.social" |} ->
   normalize u = "example.social") /\
  (input = "https://example.social/path" ->
   u = {| Host := "example.social"; Path := "/path" |} ->
   normalize u = "example.social").
Proof.
  intros Hform Hinput Hparse.
  split; [by unfold normalize; intros ->|].
  split; [unfold normalize; by destruct (String.eqb_spec (Host u) "")|].
  split; [|split; by intros _ ->].
  destruct (route_parsed u) as (res & s' & rest & Hrun & Hev & Hfetch & Hres);
    try done.
  exists res, s', rest. split; [done|]. split; [done|]. split; [done|].
  by intros queryResponse ->.
Qed.

(** C7: an empty [domain] makes the handler return
    [ErrMissingParam("domain")], a non-empty one that does not parse
    [ErrBadRequest], in both cases before it touches the cache or the
    network.  The handler returns these two errors in no other case,
    every other error it returns is one of the library (a failed fetch,
    decoding or write), and the wrapper answers the former two with
    status 400 and their message, the latter with status 500. *)
Theorem input_errors :
  ParseForm r = None ->
  (input = "" ->
   nodeInfoRoute W tGet tSet r s = (Failed (ErrMissingParam "domain"), s)) /\
  (input <> "" -> (exists msg, url_Parse W input = inl msg) ->
   nodeInfoRoute W tGet tSet r s =
     (Failed (ErrBadRequest ("not an url: " +:+ input)), s)) /\
  (forall e s', nodeInfoRoute W tGet tSet r s = (Failed e, s') ->
     match e with
     | ErrMissingParam p => p = "domain" /\ input = ""
     | ErrBadRequest m =>
         m = "not an url: " +:+ input /\ input <> "" /\
         exists msg, url_Parse W input = inl msg
     | LibraryError _ => input <> "" /\ exists u, url_Parse W input = inr u
     end) /\
  (forall p m msg,
     ServeHTTP_error (ErrMissingParam p) =
       http_Error ("missing mandatory parameter: " +:+ p) 400 /\
     ServeHTTP_error (ErrBadRequest m) = http_Error m 400 /\
     ServeHTTP_error (LibraryError msg) = http_Error "Internal Server Error" 500 /\
     status (ServeHTTP_error (ErrMissingParam p)) <>
       status (ServeHTTP_error (LibraryError msg)) /\
     status (ServeHTTP_error (ErrBadRequest m)) <>
       status (ServeHTTP_error (LibraryError msg))).
Proof.
  intros Hform.
  split; [by apply route_missing_param|].
  split; [intros Hinput [msg Hparse]; by eapply route_bad_request|].
  split; [|done].
  intros e s'. destruct (String.eqb_spec input "") as [Hempty|Hinput].
  { rewrite route_missing_param by done. by intros [= <- <-]. }
  destruct (url_Parse W input) as [msg|u] eqn:Hparse.
  { erewrite route_bad_request by done. intros [= <- <-]. eauto. }
  destruct (route_parsed u) as (res & s1 & rest & Hrun & _ & _ & Hres); try done.
  rewrite Hrun. intros [= -> <-]. destruct Hres as [msg ->]. eauto.
Qed.

End Input.

Section Examples.

Local Ltac by_evaluation :=
  first [ reflexivity | vm_compute; reflexivity | vm_compute; discriminate ].

Lemma hop2_link_choice_witness :
  exists l, l ∈ Links doc_21_only /\ Rel l = schema21 /\
            scanLinks (Links doc_21_only) = Href l.
Proof.
  refine (proj1 (proj2 (proj2
    (hop2_link_choice (world_of doc_21_only (inr "mastodon 4.2.0 node info"))
       1000 2000 (request "example.social") state0 bare_domain zeroSoftware
       (segfaultPrevention cache0) "discovery document" doc_21_only
       _ _ _ _ _ _))) _ _); try by_evaluation.
  - exists link21. split; [|reflexivity].
    apply list_elem_of_In. simpl. auto.
  - intros l Hl%list_elem_of_In. simpl in Hl.
    destruct Hl as [<- | [<- | []]]; discriminate.
Defined.

(** C1 as first stated fails on a document with a 2.1 link between
    two copies of a 2.0 link: the first and the last recognized link
    are the 2.0 link, the scan leaves its [href], and hop 2 fetches it,
    not the [href] of the 2.1 link. *)
Lemma link21_between_link20s :
  link21 ∈ Links doc_20_21_20 /\
  head (recognized_links (Links doc_20_21_20)) = Some link20 /\
  last (recognized_links (Links doc_20_21_20)) = Some link20 /\
  scanLinks (Links doc_20_21_20) = Href link20 /\
  Href link20 <> Href link21 /\
  events (nodeInfoRoute (world_of doc_20_21_20 (inr "mastodon 4.2.0 node info"))
            1000 2000 (request "example.social") state0).2 =
    [ CacheGet "example.social";
      Fetched "https://example.social/.well-known/nodeinfo";
      Fetched "https://example.social/nodeinfo/2.0";
      CacheSet "example.social" mastodon ].
Proof.
  split; [apply list_elem_of_In; simpl; auto|].
  split; [vm_compute; reflexivity|]. split; [vm_compute; reflexivity|].
  split; [vm_compute; reflexivity|].
  split; [discriminate | vm_compute; reflexivity].
Qed.

Lemma no_recognized_link_witness :
  exists s',
    nodeInfoRoute (world_of doc_other (inr "mastodon 4.2.0 node info"))
      1000 2000 (request "example.social") state0 =
      (Ok {| Domain := "example.social"; NodeInfo_Software := zeroSoftware |}, s') /\
    events s' = [ CacheGet "example.social";
                  Fetched "https://example.social/.well-known/nodeinfo" ].
Proof.
  destruct (no_recognized_link (world_of doc_other (inr "mastodon 4.2.0 node info"))
       1000 2000 (request "example.social") state0 bare_domain zeroSoftware
       (segfaultPrevention cache0) "discovery document" doc_other)
    as (s' & Hrun & Hok & Hev & _); try by_evaluation.
  - intros l Hl%list_elem_of_In. simpl in Hl.
    destruct Hl as [<- | []]. reflexivity.
  - exists s'. split; [|exact Hev]. rewrite Hrun. f_equal.
Defined.

Lemma hop2_failure_keeps_cache_witness :
  fst <$> Cache_Get (1001 + hour) "example.social" stamped =
    Some (zeroSoftware, false) /\
  exists s',
    nodeInfoRoute (world_of doc_21_only (inl "connection refused"))
      (1001 + hour) (2000 + hour) (request "example.social")
      {| cache := stamped; events := [] |} =
      (Failed (LibraryError "connection refused"), s') /\
    index (Data (cache s')) "example.social" = Some mastodon /\
    index (Age (cache s')) "example.social" = Some 1000.
Proof.
  split; [vm_compute; reflexivity|].
  destruct (hop2_failure_keeps_cache (world_of doc_21_only (inl "connection refused"))
       (1001 + hour) (2000 + hour) (request "example.social")
       {| cache := stamped; events := [] |} bare_domain zeroSoftware
       stamped "discovery document" doc_21_only
       ltac:(vm_compute; reflexivity) ltac:(vm_compute; discriminate)
       ltac:(vm_compute; reflexivity) ltac:(vm_compute; reflexivity)
       ltac:(vm_compute; reflexivity) ltac:(vm_compute; reflexivity)
       "connection refused"
       ltac:(vm_compute; discriminate)
       ltac:(left; vm_compute; reflexivity))
    as (s' & Hrun & _ & _ & HD & HA).
  exists s'. split; [exact Hrun|].
  split; [refine (eq_trans HD _) | refine (eq_trans HA _)];
    vm_compute; reflexivity.
Defined.

Lemma domain_normalization_witness :
  (exists s', nodeInfoRoute (world_of doc_other (inl "unused")) 1000 2000
                (request "example.social") state0 =
                (Ok {| Domain := "example.social";
                       NodeInfo_Software := zeroSoftware |}, s')) /\
  normalize {| Host := "example.social"; Path := "/path" |} = "example.social".
Proof.
  split.
  - exists (nodeInfoRoute (world_of doc_other (inl "unused")) 1000 2000
              (request "example.social") state0).2.
    by_evaluation.
  - refine (proj2 (proj2 (proj2 (proj2
      (domain_normalization (world_of doc_other (inl "unused")) 1000 2000
         (request "https://example.social/path") state0
         {| Host := "example.social"; Path := "/path" |} _ _ _)))) _ _);
      by_evaluation.
Defined.

Lemma input_errors_witness :
  nodeInfoRoute (world_of doc_other (inl "unused")) 1000 2000 (request "") state0 =
    (Failed (ErrMissingParam "domain"), state0) /\
  nodeInfoRoute (world_of doc_other (inl "unused")) 1000 2000
    (request ":example.social") state0 =
    (Failed (ErrBadRequest "not an url: :example.social"), state0).
Proof.
  split.
  - refine (proj1 (input_errors (world_of doc_other (inl "unused")) 1000 2000
                     (request "") state0 _) _); by_evaluation.
  - refine (proj1 (proj2 (input_errors (world_of doc_other (inl "unused")) 1000 2000
                     (request ":example.social") state0 _)) _ _).
    + by_evaluation.
    + by_evaluation.
    + exists "missing protocol scheme". by_evaluation.
Defined.

End Examples.

(** * Further properties of the code *)

(** ** Calls on the cache, composed *)

Section CacheCalls.

Implicit Types (c : Cache) (key d k : string) (sfw v : Software).

(** The answer of [Get] depends on the TTL and on the entry of its
    key, nothing else. *)
Lemma Cache_Get_local now k c c' :
  TTL c = TTL c' ->
  index (Data c) k = index (Data c') k ->
  index (Age c) k = index (Age c') k ->
  fst <$> Cache_Get now k c = fst <$> Cache_Get now k c'.
Proof.
  intros HT HD HA.
  destruct (index (Age c) k) as [age|] eqn:Hage.
  - destruct (Z_lt_le_dec (TTL c) (Time_Sub now age)).
    + rewrite (Cache_Get_stale now k c age), (Cache_Get_stale now k c' age);
        [done | congruence | lia | done | done].
    + rewrite (Cache_Get_fresh now k c age), (Cache_Get_fresh now k c' age);
        [by rewrite HD | congruence | lia | done | done].
  - destruct (index (Data c) k) as [x|] eqn:Hdata.
    + rewrite (Cache_Get_adopt now k c x), (Cache_Get_adopt now k c' x);
        [done | congruence | congruence | done | done].
    + rewrite (Cache_Get_absent now k c), (Cache_Get_absent now k c');
        [done | congruence | congruence | done | done].
Qed.

Lemma stored_other_Data now key sfw c k :
  key <> k -> index (Data (stored now key sfw c)) k = index (Data c) k.
Proof.
  intros Hne. simpl. rewrite lookup_insert_ne by done.
  destruct (Data c); [done | apply lookup_empty].
Qed.

Lemma stored_other_Age now key sfw c k :
  key <> k -> index (Age (stored now key sfw c)) k = index (Age c) k.
Proof.
  intros Hne. simpl. rewrite lookup_insert_ne by done.
  destruct (Age c); [done | apply lookup_empty].
Qed.


(** X2: a [Set] of one key does not change what [Get] answers for any
    other key. *)
Theorem Set_keeps_other_answers d k v ts now c :
  d <> k ->
  exists c1,
    Cache_Set ts d v c = Some c1 /\
    fst <$> Cache_Get now k c1 = fst <$> Cache_Get now k c.
Proof.
  intros Hne. exists (stored ts d v c). split; [apply Cache_Set_stored|].
  apply Cache_Get_local;
    [done | by apply stored_other_Data | by apply stored_other_Age].
Qed.

Lemma Set_keeps_other_answers_witness :
  exists c1,
    Cache_Set (2000 + hour) "other.example" pleroma stamped = Some c1 /\
    fst <$> Cache_Get (2001 + hour) "example.social" c1 =
      Some (zeroSoftware, false).
Proof.
  destruct (Set_keeps_other_answers "other.example" "example.social" pleroma
              (2000 + hour) (2001 + hour) stamped) as (c1 & Hset & Hget).
  - discriminate.
  - exists c1. split; [exact Hset|]. rewrite Hget. vm_compute. reflexivity.
Defined.

(** One call never panics, keeps the TTL, drops no value and no
    stamp, and stores no value but the one of a [Set]. *)
Lemma apply_op_keeps op c :
  exists c' out,
    apply_op op c = Some (c', out) /\ TTL c' = TTL c /\
    (forall k, is_Some (index (Data c) k) -> is_Some (index (Data c') k)) /\
    (forall k, is_Some (index (Age c) k) -> is_Some (index (Age c') k)) /\
    (forall k v, index (Data c') k = Some v ->
                 index (Data c) k = Some v \/ sets k v op).
Proof.
  destruct op as [now key | now key sfw]; simpl.
  - destruct (Cache_Get_total now key c) as [[[x found] c'] Hget].
    rewrite Hget. simpl. do 2 eexists. split; [done|].
    destruct (Cache_Get_effect _ _ _ _ _ Hget) as (HT & HD & HA & HA').
    split; [done|]. split; [intros k; by rewrite HD|].
    split; [|intros k v; rewrite HD; by left].
    intros k [a Ha]. destruct (decide (k = key)) as [->|Hne].
    + rewrite (HA' a Ha). eauto.
    + rewrite HA by done. eauto.
  - rewrite Cache_Set_stored. simpl. do 2 eexists. split; [done|].
    split; [done|].
    split; [|split].
    + intros k Hk. destruct (decide (key = k)) as [->|Hne].
      * rewrite stored_Data. eauto.
      * by rewrite stored_other_Data.
    + intros k Hk. destruct (decide (key = k)) as [->|Hne].
      * rewrite stored_Age. eauto.
      * by rewrite stored_other_Age.
    + intros k v. destruct (decide (key = k)) as [->|Hne].
      * rewrite stored_Data. intros [= ->]. by right.
      * rewrite stored_other_Data by done. by left.
Qed.

(** X3: whatever the cache and whatever the calls, a sequence of
    [Get]s and [Set]s runs to its end without a panic and keeps the
    TTL; no key loses its value or its stamp on the way (nothing is
    ever deleted), and a value the cache holds at the end was there at
    the start or was written by a [Set] of the sequence. *)
Theorem run_deletes_nothing ops c :
  exists c' out,
    run ops c = Some (c', out) /\ TTL c' = TTL c /\
    (forall k, is_Some (index (Data c) k) -> is_Some (index (Data c') k)) /\
    (forall k, is_Some (index (Age c) k) -> is_Some (index (Age c') k)) /\
    (forall k v, index (Data c') k = Some v ->
                 index (Data c) k = Some v \/ Exists (sets k v) ops).
Proof.
  revert c. induction ops as [|op ops IH]; intros c.
  - exists c, []. repeat split; try done. intros k v Hk. by left.
  - destruct (apply_op_keeps op c) as (c1 & out1 & Hstep & HT1 & HD1 & HA1 & HV1).
    destruct (IH c1) as (c2 & out2 & Hrun & HT2 & HD2 & HA2 & HV2).
    exists c2, (out1 ++ out2). simpl. rewrite Hstep. simpl. rewrite Hrun. simpl.
    split; [done|]. split; [congruence|].
    split; [intros k Hk; by apply HD2, HD1|].
    split; [intros k Hk; by apply HA2, HA1|].
    intros k v Hk. destruct (HV2 k v Hk) as [Hk1 | Hset].
    + destruct (HV1 k v Hk1) as [Hk0 | Hset]; [by left|].
      right. by apply Exists_cons_hd.
    + right. by apply Exists_cons_tl.
Qed.

(** Where the stamp of the key of a [Get] can come from. *)
Lemma Cache_Get_stamp now key c r c' :
  Cache_Get now key c = Some (r, c') ->
  is_Some (index (Age c') key) ->
  is_Some (index (Age c) key) \/ is_Some (index (Data c) key).
Proof.
  destruct (index (Age c) key) as [age|] eqn:Hage; [eauto|].
  destruct (index (Data c) key) as [x|] eqn:Hdata; [eauto|].
  rewrite Cache_Get_absent by done. intros [= <- <-].
  rewrite segfaultPrevention_Age, Hage. by intros [? ?].
Qed.

Lemma apply_op_stamps op c c' out :
  stamps_have_values c -> apply_op op c = Some (c', out) ->
  stamps_have_values c'.
Proof.
  intros Hinv. destruct op as [now key | now key sfw]; simpl.
  - destruct (Cache_Get now key c) as [[[x found] c1]|] eqn:Hget; [|done].
    simpl. intros [= <- <-].
    destruct (Cache_Get_effect _ _ _ _ _ Hget) as (HT & HD & HA & HA').
    intros k Hk. rewrite HD. destruct (decide (k = key)) as [->|Hne].
    + destruct (Cache_Get_stamp _ _ _ _ _ Hget Hk) as [Hold | Hval];
        [by apply Hinv | done].
    + apply Hinv. by rewrite <- HA.
  - rewrite Cache_Set_stored. simpl. intros [= <- <-].
    intros k. destruct (decide (key = k)) as [->|Hne].
    + rewrite stored_Data. eauto.
    + rewrite stored_other_Data, stored_other_Age by done. apply Hinv.
Qed.

Lemma run_stamps ops c c' out :
  stamps_have_values c -> run ops c = Some (c', out) ->
  stamps_have_values c'.
Proof.
  revert c c' out. induction ops as [|op ops IH]; intros c c' out Hinv; simpl.
  - by intros [= <- <-].
  - destruct (apply_op op c) as [[c1 out1]|] eqn:Hstep; [|done]. simpl.
    destruct (run ops c1) as [[c2 out2]|] eqn:Hrun; [|done]. simpl.
    intros [= <- <-]. eapply IH; [|done]. by eapply apply_op_stamps.
Qed.

(** X4: in every cache the program can reach from its start (the
    declared cache, populated from the cache file or not, then any
    [Get]s and [Set]s) each stamped key has a value; so there a key
    whose stamp is not older than the TTL is always found. *)
Theorem reachable_stamps_have_values D ops c out :
  run ops (populate D cache0) = Some (c, out) ->
  stamps_have_values c /\
  (forall now key age,
      index (Age c) key = Some age -> Time_Sub now age <= TTL c ->
      exists v c', Cache_Get now key c = Some (v, true, c')).
Proof.
  intros Hrun.
  assert (Hinv : stamps_have_values c).
  { eapply run_stamps; [|done].
    intros k. unfold populate.
    destruct (os_Open D) as [?|text]; [by intros [? ?]|].
    destruct (Decode_cacheData D text); by intros [? ?]. }
  split; [done|]. intros now key age Hage Hfresh.
  destruct (Hinv key) as [v Hv]; [by rewrite Hage|].
  rewrite (Cache_Get_fresh now key c age), Hv by done. eauto.
Qed.

Lemma reachable_stamps_have_values_witness :
  exists c out,
    run mixed_calls (populate disk_of_stamped cache0) = Some (c, out) /\
    stamps_have_values c.
Proof.
  exists (default cache0 (fst <$> run mixed_calls (populate disk_of_stamped cache0))),
         (default [] (snd <$> run mixed_calls (populate disk_of_stamped cache0))).
  assert (Hrun : run mixed_calls (populate disk_of_stamped cache0) =
                 Some (default cache0 (fst <$> run mixed_calls (populate disk_of_stamped cache0)),
                       default [] (snd <$> run mixed_calls (populate disk_of_stamped cache0))))
    by (vm_compute; reflexivity).
  split; [exact Hrun|].
  exact (proj1 (reachable_stamps_have_values disk_of_stamped mixed_calls _ _ Hrun)).
Defined.

(** X5: with a TTL that is not negative, asking again at the same
    reading of the clock gives the same answer and changes nothing
    more: the cache a [Get] leaves is a fixed point of that [Get]. *)
Theorem Get_again now key c r c' :
  monotonic now -> 0 <= TTL c ->
  Cache_Get now key c = Some (r, c') ->
  Cache_Get now key c' = Some (r, c').
Proof.
  intros Hnow HT.
  destruct (index (Age c) key) as [age|] eqn:Hage.
  - destruct (Z_lt_le_dec (TTL c) (Time_Sub now age)).
    + rewrite (Cache_Get_stale now key c age) by done. intros [= <- <-].
      rewrite (Cache_Get_stale now key _ age);
        [by rewrite segfaultPrevention_idemp
        | by rewrite segfaultPrevention_Age | done].
    + rewrite (Cache_Get_fresh now key c age) by done. intros [= <- <-].
      rewrite (Cache_Get_fresh now key _ age);
        [by rewrite segfaultPrevention_idemp, segfaultPrevention_Data
        | by rewrite segfaultPrevention_Age | done].
  - destruct (index (Data c) key) as [x|] eqn:Hdata.
    + rewrite (Cache_Get_adopt now key c x) by done. intros [= <- <-].
      match goal with |- Cache_Get _ _ ?c2 = _ => set (adopted := c2) end.
      assert (HD : index (Data adopted) key = Some x)
        by (rewrite <- Hdata; apply (segfaultPrevention_Data c key)).
      assert (HA : index (Age adopted) key = Some now)
        by apply lookup_insert_eq.
      assert (Hfix : segfaultPrevention adopted = adopted).
      { apply segfaultPrevention_id; unfold adopted; simpl; [|eauto].
        destruct (Data c); eauto. }
      rewrite (Cache_Get_fresh now key adopted now HA), HD, Hfix; [done|].
      rewrite Time_Sub_monotonic by done. simpl. lia.
    + rewrite Cache_Get_absent by done. intros [= <- <-].
      rewrite Cache_Get_absent;
        [by rewrite segfaultPrevention_idemp
        | by rewrite segfaultPrevention_Age
        | by rewrite segfaultPrevention_Data].
Qed.

Lemma Get_again_witness :
  exists c',
    Cache_Get 1000 "example.social"
      {| TTL := hour; Data := Some {[ "example.social" := mastodon ]};
         Age := None |} = Some (mastodon, true, c') /\
    Cache_Get 1000 "example.social" c' = Some (mastodon, true, c').
Proof.
  eexists. split; [vm_compute; reflexivity|].
  apply (Get_again 1000 "example.social"
           {| TTL := hour; Data := Some {[ "example.social" := mastodon ]};
              Age := None |}).
  - unfold monotonic, maxDuration; lia.
  - simpl; unfold hour; lia.
  - vm_compute; reflexivity.
Defined.

End CacheCalls.

(** ** The cache file *)

Section CacheFile.

(** X6: the cache file keeps values and no stamps, so restarting
    gives every saved entry a new life: when the file written at exit
    is read back at the next start as the value map it was written
    from, each key that had a value is found by its first [Get], at
    whatever reading of the clock and however stale it was before, and
    is stamped by that [Get]. *)
Theorem restart_revives D D' c d v text now :
  index (Data c) d = Some v ->
  persist D c = Some (inr text) ->
  os_Open D' = inr text ->
  Decode_cacheData D' text = inr (Data c) ->
  TTL (populate D' cache0) = TTL cache0 /\
  Age (populate D' cache0) = None /\
  exists c',
    Cache_Get now d (populate D' cache0) = Some (v, true, c') /\
    index (Age c') d = Some now.
Proof.
  intros Hv _ Hopen Hdecode. unfold populate. rewrite Hopen, Hdecode.
  split; [done|]. split; [done|].
  eexists. split; [by apply Cache_Get_adopt|]. simpl. apply lookup_insert_eq.
Qed.

Lemma restart_revives_witness :
  fst <$> Cache_Get (1001 + hour) "example.social" stamped =
    Some (zeroSoftware, false) /\
  exists c',
    Cache_Get (1001 + hour) "example.social" (populate disk_of_stamped cache0) =
      Some (mastodon, true, c') /\
    index (Age c') "example.social" = Some (1001 + hour).
Proof.
  split; [vm_compute; reflexivity|].
  refine (proj2 (proj2
    (restart_revives disk_of_stamped disk_of_stamped stamped "example.social"
       mastodon "snapshot of stamped" (1001 + hour) _ _ _ _)));
    vm_compute; reflexivity.
Defined.

End CacheFile.

(** ** More on the link scan *)

Section ScanOrder.

(** Links the scan does not react to, at the end of the document,
    change nothing. *)
Lemma scanLinks_ignores links after :
  (forall l', l' ∈ after -> recognized l' = false) ->
  scanLinks (links ++ after) = scanLinks links.
Proof.
  induction after as [|x after IH] using rev_ind; intros Hafter.
  - by rewrite app_nil_r.
  - rewrite app_assoc, scanLinks_snoc.
    rewrite (Hafter x) by (apply elem_of_app; right; by apply list_elem_of_singleton).
    apply IH. intros l' Hl'. apply Hafter, elem_of_app. by left.
Qed.

(** X7: the scan stops at no link, so of several recognized links the
    last one in the document decides: its [href] is what the scan
    leaves, whatever comes before it. *)
Theorem last_recognized_link_decides before l after :
  recognized l = true ->
  (forall l', l' ∈ after -> recognized l' = false) ->
  scanLinks (before ++ l :: after) = Href l.
Proof.
  intros Hl Hafter.
  replace (before ++ l :: after) with ((before ++ [l]) ++ after)
    by (by rewrite <- app_assoc).
  rewrite scanLinks_ignores by done.
  rewrite scanLinks_snoc. by rewrite Hl.
Qed.

Lemma last_recognized_link_decides_witness :
  scanLinks ([link21; link_other] ++ link20 :: [link_other]) = Href link20.
Proof.
  apply (last_recognized_link_decides [link21; link_other] link20 [link_other]).
  - reflexivity.
  - intros l' Hl'%list_elem_of_singleton. by subst.
Defined.

End ScanOrder.

(** ** Runs of the handler *)

Section Runs.

Variables (W : World) (tGet tSet : Z) (r : Request) (s : State).

Local Abbreviation input := (Values_Get (Form r) "domain").

Lemma respond_returns queryResponse : respond W queryResponse <> Panicked.
Proof. unfold respond. by destruct (Encode W _). Qed.

(** The ways a run can go once the input has parsed, with the cache
    and the events each leaves. *)
Lemma route_outcomes u :
  ParseForm r = None -> input <> "" -> url_Parse W input = inr u ->
  exists sfw ok c1,
    Cache_Get tGet (normalize u) (cache s) = Some (sfw, ok, c1) /\
    exists res c' rest,
      nodeInfoRoute W tGet tSet r s =
        (res, {| cache := c';
                 events := events s ++ CacheGet (normalize u) :: rest |}) /\
      res <> Panicked /\
      ((ok = true /\ c' = c1 /\ rest = [] /\
        res = respond W {| Domain := normalize u; NodeInfo_Software := sfw |}) \/
       (ok = false /\ c' = c1 /\
        rest = [Fetched (wellKnown (normalize u))]) \/
       (ok = false /\ c' = c1 /\
        exists url, rest = [Fetched (wellKnown (normalize u)); Fetched url]) \/
       (ok = false /\
        exists url resInfo,
          c' = stored tSet (normalize u) resInfo c1 /\
          rest = [Fetched (wellKnown (normalize u)); Fetched url;
                  CacheSet (normalize u) resInfo])).
Proof.
  intros Hform Hinput Hparse.
  destruct (Cache_Get_total tGet (normalize u) (cache s)) as [[[sfw ok] c1] Hget].
  exists sfw, ok, c1. split; [done|].
  destruct ok.
  { do 3 eexists. split; [|split; [apply respond_returns|left; done]].
    unfold nodeInfoRoute. rewrite Hform.
    destruct (String.eqb_spec input ""); [done|]. rewrite Hparse.
    unfold bind, cache_Get, ret, fail; simpl. rewrite Hget. simpl.
    unfold respond. by destruct (Encode W _). }
  destruct (http_Get W 0 (wellKnown (normalize u))) as [msg|body1] eqn:Hhop1.
  { exists (Failed (LibraryError msg)). do 2 eexists.
    split; [|split; [done | right; left; done]].
    unfold nodeInfoRoute. rewrite Hform.
    destruct (String.eqb_spec input ""); [done|]. rewrite Hparse.
    unfold bind, cache_Get, http_get, bind, emit, try, ret, fail; simpl.
    rewrite Hget. simpl. fold (wellKnown (normalize u)). rewrite Hhop1.
    by rewrite <- app_assoc. }
  destruct (Decode_WellKnownNodeInfo W body1) as [msg|wk] eqn:Hdoc.
  { exists (Failed (LibraryError msg)). do 2 eexists.
    split; [|split; [done | right; left; done]].
    unfold nodeInfoRoute. rewrite Hform.
    destruct (String.eqb_spec input ""); [done|]. rewrite Hparse.
    unfold bind, cache_Get, http_get, bind, emit, try, ret, fail; simpl.
    rewrite Hget. simpl. fold (wellKnown (normalize u)). rewrite Hhop1, Hdoc.
    by rewrite <- app_assoc. }
  rewrite (route_scan W tGet tSet r s u sfw c1 body1 wk) by done. cbv zeta.
  destruct (String.eqb (scanLinks (Links wk)) "").
  { do 3 eexists. split; [done|].
    split; [apply respond_returns | right; left; done]. }
  destruct (http_Get W 1 _) as [msg|body2].
  { do 3 eexists. split; [simpl; by rewrite <- app_assoc|].
    split; [done | right; right; left; eauto]. }
  destruct (Decode_Software W body2) as [msg|resInfo].
  { do 3 eexists. split; [simpl; by rewrite <- app_assoc|].
    split; [done | right; right; left; eauto]. }
  do 3 eexists. split; [simpl; by rewrite <- !app_assoc|].
  split; [apply respond_returns | right; right; right].
  split; [done|]. eauto.
Qed.

Lemma route_hit u sfw c1 :
  ParseForm r = None -> input <> "" -> url_Parse W input = inr u ->
  Cache_Get tGet (normalize u) (cache s) = Some (sfw, true, c1) ->
  nodeInfoRoute W tGet tSet r s =
    (respond W {| Domain := normalize u; NodeInfo_Software := sfw |},
     {| cache := c1; events := events s ++ [CacheGet (normalize u)] |}).
Proof.
  intros Hform Hinput Hparse Hget.
  unfold nodeInfoRoute. rewrite Hform.
  destruct (String.eqb_spec input ""); [done|]. rewrite Hparse.
  unfold bind, cache_Get, ret, fail; simpl. rewrite Hget. simpl.
  unfold respond. by destruct (Encode W _).
Qed.

(** X8: when the cache finds the domain, the handler answers with the
    cached software and touches the network not at all: its only event
    is the [Get]; no value of the cache changes, and no stamp but
    possibly that of the domain. *)
Theorem cache_hit_answers_without_fetch u sfw c1 :
  ParseForm r = None -> input <> "" -> url_Parse W input = inr u ->
  Cache_Get tGet (normalize u) (cache s) = Some (sfw, true, c1) ->
  nodeInfoRoute W tGet tSet r s =
    (respond W {| Domain := normalize u; NodeInfo_Software := sfw |},
     {| cache := c1; events := events s ++ [CacheGet (normalize u)] |}) /\
  index (Data (cache s)) (normalize u) = Some sfw /\
  (forall k, index (Data c1) k = index (Data (cache s)) k) /\
  (forall k, k <> normalize u -> index (Age c1) k = index (Age (cache s)) k).
Proof.
  intros Hform Hinput Hparse Hget.
  split; [by apply route_hit|].
  split; [by eapply Cache_Get_hit|].
  destruct (Cache_Get_effect _ _ _ _ _ Hget) as (_ & HD & HA & _). done.
Qed.

(** X9: whatever the request, the world and the cache, the handler
    returns (it never panics), keeps the TTL, and does at most this, in
    this order: one [Get] on the cache, the fetch of the discovery
    document of the same domain, one more fetch, one [Set] of the same
    domain. *)
Theorem handler_effects_bounded :
  exists res s' rest d url sfw,
    nodeInfoRoute W tGet tSet r s = (res, s') /\
    res <> Panicked /\
    events s' = events s ++ rest /\
    rest `prefix_of`
      [CacheGet d; Fetched (wellKnown d); Fetched url; CacheSet d sfw] /\
    TTL (cache s') = TTL (cache s).
Proof.
  destruct (ParseForm r) as [msg|] eqn:Hform.
  { rewrite (route_ParseForm_error W tGet tSet r s msg) by done.
    exists (Failed (LibraryError msg)), s, [], "", "", zeroSoftware.
    split; [done|]. split; [done|]. split; [by rewrite app_nil_r|].
    split; [by eexists | done]. }
  destruct (String.eqb_spec input "") as [Hempty|Hinput].
  { rewrite route_missing_param by done.
    exists (Failed (ErrMissingParam "domain")), s, [], "", "", zeroSoftware.
    split; [done|]. split; [done|]. split; [by rewrite app_nil_r|].
    split; [by eexists | done]. }
  destruct (url_Parse W input) as [msg|u] eqn:Hparse.
  { rewrite (route_bad_request W tGet tSet r s msg) by done.
    eexists _, s, [], "", "", zeroSoftware.
    split; [done|]. split; [done|]. split; [by rewrite app_nil_r|].
    split; [by eexists | done]. }
  destruct (route_outcomes u) as (sfw & ok & c1 & Hget & res & c' & rest & Hrun & Hres & Hcases);
    try done.
  destruct (Cache_Get_effect _ _ _ _ _ Hget) as (HT & _).
  rewrite Hrun.
  destruct Hcases as [(-> & -> & -> & ->) | [(-> & -> & ->) |
    [(-> & -> & url & ->) | (-> & url & resInfo & -> & ->)]]].
  - eexists _, _, _, (normalize u), "", zeroSoftware.
    split; [done|]. split; [done|]. split; [done|]. split; [by eexists | done].
  - eexists _, _, _, (normalize u), "", zeroSoftware.
    split; [done|]. split; [done|]. split; [done|]. split; [by eexists | done].
  - eexists _, _, _, (normalize u), url, zeroSoftware.
    split; [done|]. split; [done|]. split; [done|]. split; [by eexists | done].
  - eexists _, _, _, (normalize u), url, resInfo.
    split; [done|]. split; [done|]. split; [done|]. split; [by eexists [] | done].
Qed.

(** X10: a run changes no entry of the cache but that of the domain it
    resolves: every other key keeps its value and its stamp. *)
Theorem handler_touches_one_key u k :
  ParseForm r = None -> input <> "" -> url_Parse W input = inr u ->
  k <> normalize u ->
  index (Data (cache (nodeInfoRoute W tGet tSet r s).2)) k =
    index (Data (cache s)) k /\
  index (Age (cache (nodeInfoRoute W tGet tSet r s).2)) k =
    index (Age (cache s)) k.
Proof.
  intros Hform Hinput Hparse Hk.
  destruct (route_outcomes u) as (sfw & ok & c1 & Hget & res & c' & rest & Hrun & Hres & Hcases);
    try done.
  destruct (Cache_Get_effect _ _ _ _ _ Hget) as (_ & HD & HA & _).
  rewrite Hrun. simpl.
  assert (c' = c1 \/ exists resInfo, c' = stored tSet (normalize u) resInfo c1)
    as [-> | [resInfo ->]].
  { destruct Hcases as [(_ & -> & _) | [(_ & -> & _) |
      [(_ & -> & _) | (_ & url & resInfo & -> & _)]]]; eauto. }
  - by rewrite HD, HA.
  - rewrite stored_other_Data, stored_other_Age by done. by rewrite HD, HA.
Qed.

End Runs.

Section Resolved.

(** A run that gets past the input checks, misses the cache and is
    served a discovery document. *)
Variables (W : World) (tGet tSet : Z) (r : Request) (s : State).
Variables (parsedDomain : URL) (sfw0 : Software) (c1 : Cache).
Variables (body1 : string) (wk : WellKnownNodeInfo).

Local Abbreviation domain := (normalize parsedDomain).

Hypothesis Hform : ParseForm r = None.
Hypothesis Hinput : Values_Get (Form r) "domain" <> "".
Hypothesis Hparse : url_Parse W (Values_Get (Form r) "domain") = inr parsedDomain.
Hypothesis Hmiss : Cache_Get tGet domain (cache s) = Some (sfw0, false, c1).
Hypothesis Hhop1 : http_Get W 0 (wellKnown domain) = inr body1.
Hypothesis Hdoc : Decode_WellKnownNodeInfo W body1 = inr wk.

(** X11: a recognized link with an empty [href], when it is the last
    recognized link of the document, switches hop 2 off even if
    recognized links with an address come before it: the handler
    answers with the empty software, has fetched the discovery document
    only, and has written nothing to the cache. *)
Theorem empty_href_skips_hop2 before l after :
  Links wk = before ++ l :: after ->
  recognized l = true -> Href l = "" ->
  (forall l', l' ∈ after -> recognized l' = false) ->
  exists s',
    nodeInfoRoute W tGet tSet r s =
      (respond W {| Domain := domain; NodeInfo_Software := zeroSoftware |}, s') /\
    events s' = events s ++ [CacheGet domain; Fetched (wellKnown domain)] /\
    same_entries (cache s) (cache s').
Proof.
  intros Hlinks Hl Hhref Hafter.
  rewrite (route_scan W tGet tSet r s parsedDomain sfw0 c1 body1 wk) by done.
  cbv zeta.
  assert (Hscan : scanLinks (Links wk) = "").
  { rewrite Hlinks.
    replace (before ++ l :: after) with ((before ++ [l]) ++ after)
      by (by rewrite <- app_assoc).
    rewrite scanLinks_ignores by done.
    rewrite scanLinks_snoc. by rewrite Hl. }
  rewrite Hscan. simpl. eexists. split; [done|]. split; [done|].
  by eapply miss_same_entries.
Qed.

(** X12: when both hops succeed the handler answers with the software
    of the second document and stores it: its events are the [Get], the
    two fetches and one [Set]; afterwards the cache holds that software
    for the domain, stamped with the reading of the [Set], and every
    other key as before. *)
Theorem resolution_populates_cache body2 resInfo :
  scanLinks (Links wk) <> "" ->
  http_Get W 1 (scanLinks (Links wk)) = inr body2 ->
  Decode_Software W body2 = inr resInfo ->
  exists s',
    nodeInfoRoute W tGet tSet r s =
      (respond W {| Domain := domain; NodeInfo_Software := resInfo |}, s') /\
    events s' =
      events s ++ [CacheGet domain; Fetched (wellKnown domain);
                   Fetched (scanLinks (Links wk)); CacheSet domain resInfo] /\
    TTL (cache s') = TTL (cache s) /\
    index (Data (cache s')) domain = Some resInfo /\
    index (Age (cache s')) domain = Some tSet /\
    (forall k, k <> domain ->
       index (Data (cache s')) k = index (Data (cache s)) k /\
       index (Age (cache s')) k = index (Age (cache s)) k).
Proof.
  intros Hurl Hhop2 Hinfo.
  rewrite (route_scan W tGet tSet r s parsedDomain sfw0 c1 body1 wk) by done.
  cbv zeta.
  destruct (String.eqb_spec (scanLinks (Links wk)) ""); [done|].
  rewrite Hhop2, Hinfo. eexists. split; [done|]. cbn [cache events].
  split; [by rewrite <- !app_assoc|].
  destruct (miss_same_entries tGet s parsedDomain sfw0 c1 Hmiss) as (HT & HD & HA).
  split; [done|].
  split; [apply stored_Data|]. split; [apply stored_Age|].
  intros k Hk.
  rewrite (stored_other_Data tSet domain resInfo c1 k),
          (stored_other_Age tSet domain resInfo c1 k) by done.
  by rewrite HD, HA.
Qed.

(** X13: resolution is memoized.  After a run in which both hops
    succeeded, a later request that normalizes to the same domain, read
    off the clock no more than the TTL after the [Set], is answered
    with the stored software from the cache alone: no fetch, no [Set],
    and the cache stays as the first run left it. *)
Theorem next_request_served_from_cache
    body2 resInfo (W' : World) (tGet' tSet' : Z) (r' : Request) (u' : URL) :
  scanLinks (Links wk) <> "" ->
  http_Get W 1 (scanLinks (Links wk)) = inr body2 ->
  Decode_Software W body2 = inr resInfo ->
  ParseForm r' = None ->
  Values_Get (Form r') "domain" <> "" ->
  url_Parse W' (Values_Get (Form r') "domain") = inr u' ->
  normalize u' = domain ->
  monotonic tSet -> monotonic tGet' -> tGet' - tSet <= TTL (cache s) ->
  exists s1,
    nodeInfoRoute W tGet tSet r s =
      (respond W {| Domain := domain; NodeInfo_Software := resInfo |}, s1) /\
    nodeInfoRoute W' tGet' tSet' r' s1 =
      (respond W' {| Domain := domain; NodeInfo_Software := resInfo |},
       {| cache := cache s1; events := events s1 ++ [CacheGet domain] |}).
Proof.
  intros Hurl Hhop2 Hinfo Hform' Hinput' Hparse' Hsame Hset Hget' Hin.
  rewrite (route_scan W tGet tSet r s parsedDomain sfw0 c1 body1 wk) by done.
  cbv zeta.
  destruct (String.eqb_spec (scanLinks (Links wk)) ""); [done|].
  rewrite Hhop2, Hinfo. eexists. split; [done|].
  destruct (miss_same_entries tGet s parsedDomain sfw0 c1 Hmiss) as (HT & _).
  rewrite <- Hsame.
  apply route_hit; try done. cbn [cache events].
  rewrite Hsame, Cache_Get_stored, Time_Sub_monotonic by done.
  rewrite HT. by destruct (Z.ltb_spec (TTL (cache s)) (tGet' - tSet)); [lia|].
Qed.

End Resolved.

Section RunExamples.

Local Ltac evaluate := vm_compute; first [ reflexivity | discriminate ].

Lemma cache_hit_answers_without_fetch_witness :
  nodeInfoRoute (world_of doc_other (inl "unused")) 2000 3000
    (request "https://example.social/path")
    {| cache := stamped; events := [] |} =
    (Ok {| Domain := "example.social"; NodeInfo_Software := mastodon |},
     {| cache := stamped; events := [CacheGet "example.social"] |}).
Proof.
  refine (proj1
    (cache_hit_answers_without_fetch (world_of doc_other (inl "unused")) 2000 3000
       (request "https://example.social/path")
       {| cache := stamped; events := [] |}
       {| Host := "example.social"; Path := "/path" |} mastodon stamped
       _ _ _ _)); evaluate.
Defined.

Lemma handler_touches_one_key_witness :
  index (Data (cache (nodeInfoRoute
                        (world_of doc_21_only (inr "mastodon 4.2.0 node info"))
                        (2000 + hour) (3000 + hour) (request "other.example")
                        {| cache := stamped; events := [] |}).2))
    "example.social" = Some mastodon /\
  index (Age (cache (nodeInfoRoute
                       (world_of doc_21_only (inr "mastodon 4.2.0 node info"))
                       (2000 + hour) (3000 + hour) (request "other.example")
                       {| cache := stamped; events := [] |}).2))
    "example.social" = Some 1000.
Proof.
  destruct (handler_touches_one_key
              (world_of doc_21_only (inr "mastodon 4.2.0 node info"))
              (2000 + hour) (3000 + hour) (request "other.example")
              {| cache := stamped; events := [] |}
              {| Host := ""; Path := "other.example" |} "example.social")
    as [HD HA]; try evaluate.
  rewrite HD, HA. split; evaluate.
Defined.

Lemma empty_href_skips_hop2_witness :
  exists s',
    nodeInfoRoute (world_of doc_empty_href (inr "mastodon 4.2.0 node info"))
      1000 2000 (request "example.social") state0 =
      (Ok {| Domain := "example.social"; NodeInfo_Software := zeroSoftware |}, s') /\
    events s' = [ CacheGet "example.social";
                  Fetched "https://example.social/.well-known/nodeinfo" ].
Proof.
  destruct (empty_href_skips_hop2
              (world_of doc_empty_href (inr "mastodon 4.2.0 node info"))
              1000 2000 (request "example.social") state0 bare_domain
              zeroSoftware (segfaultPrevention cache0) "discovery document"
              doc_empty_href)
    with (before := [link20]) (l := link21_no_href) (after := [link_other])
    as (s' & Hrun & Hev & _); try evaluate.
  - intros l' Hl'%list_elem_of_singleton. by subst.
  - exists s'. split; [|exact Hev]. rewrite Hrun. evaluate.
Defined.

Lemma resolution_populates_cache_witness :
  exists s',
    nodeInfoRoute (world_of doc_21_only (inr "mastodon 4.2.0 node info"))
      1000 2000 (request "example.social") state0 =
      (Ok {| Domain := "example.social"; NodeInfo_Software := mastodon |}, s') /\
    index (Data (cache s')) "example.social" = Some mastodon /\
    index (Age (cache s')) "example.social" = Some 2000.
Proof.
  destruct (resolution_populates_cache
              (world_of doc_21_only (inr "mastodon 4.2.0 node info"))
              1000 2000 (request "example.social") state0 bare_domain
              zeroSoftware (segfaultPrevention cache0) "discovery document"
              doc_21_only)
    with (body2 := "mastodon 4.2.0 node info") (resInfo := mastodon)
    as (s' & Hrun & _ & _ & HD & HA & _); try evaluate.
  exists s'. split; [|split; [exact HD | exact HA]]. rewrite Hrun. evaluate.
Defined.

Lemma next_request_served_from_cache_witness :
  monotonic 2000 /\ monotonic (2000 + hour) /\
  2000 + hour - 2000 <= TTL (cache state0) /\
  exists s1,
    nodeInfoRoute (world_of doc_21_only (inr "mastodon 4.2.0 node info"))
      1000 2000 (request "example.social") state0 =
      (Ok {| Domain := "example.social"; NodeInfo_Software := mastodon |}, s1) /\
    nodeInfoRoute (world_of doc_other (inl "connection refused"))
      (2000 + hour) (3000 + hour) (request "https://example.social/path") s1 =
      (Ok {| Domain := "example.social"; NodeInfo_Software := mastodon |},
       {| cache := cache s1;
          events := events s1 ++ [CacheGet "example.social"] |}).
Proof.
  assert (Hset : monotonic 2000) by (unfold monotonic, maxDuration; lia).
  assert (Hget : monotonic (2000 + hour))
    by (unfold monotonic, maxDuration, hour; lia).
  assert (Hin : 2000 + hour - 2000 <= TTL (cache state0))
    by (simpl; unfold hour; lia).
  split; [exact Hset|]. split; [exact Hget|]. split; [exact Hin|].
  exact (next_request_served_from_cache
           (world_of doc_21_only (inr "mastodon 4.2.0 node info"))
           1000 2000 (request "example.social") state0 bare_domain
           zeroSoftware (segfaultPrevention cache0) "discovery document"
           doc_21_only
           ltac:(evaluate) ltac:(evaluate) ltac:(evaluate) ltac:(evaluate)
           ltac:(evaluate) ltac:(evaluate)
           "mastodon 4.2.0 node info" mastodon
           (world_of doc_other (inl "connection refused"))
           (2000 + hour) (3000 + hour) (request "https://example.social/path")
           {| Host := "example.social"; Path := "/path" |}
           ltac:(evaluate) ltac:(evaluate) ltac:(evaluate) ltac:(evaluate)
           ltac:(evaluate) ltac:(evaluate) ltac:(evaluate)
           Hset Hget Hin).
Defined.

End RunExamples.
